(** * imapclient: the response parser and the FETCH decoder

    A shallow embedding of [imapclient/response_parser.py] (Python 2):
    [atom], [gen_parsed_response], [parse_response],
    [parse_fetch_response], [_int_or_error] and [_convert_INTERNALDATE].

    Python values are an inductive type, exceptions are an explicit
    outcome, the token source is an explicit state that [atom] threads,
    dictionaries are stdpp finite maps. *)

From Stdlib Require Import ZArith Lia Bool List Ascii String.
From stdpp Require Import base option list gmap strings.

Set Warnings "-register-all,-clear-no-such-hyp".
Local Open Scope Z_scope.
Local Open Scope string_scope.

(** ** Python strings *)

Module PyStr.

(** The double quote, which Rocq string literals here never contain. *)
Definition dq : ascii := "034"%char.
Definition nl : ascii := "010"%char.

(** [quoted s] is [s] between two double quotes. *)
Definition quoted (s : string) : string :=
  String dq (s ++ String dq EmptyString).

(** [s.isdigit()] on one character (C locale). *)
Definition is_digit (c : ascii) : bool :=
  let n := nat_of_ascii c in (48 <=? n)%nat && (n <=? 57)%nat.

(** [isspace] of the C locale: tab, LF, VT, FF, CR, space. *)
Definition is_space (c : ascii) : bool :=
  let n := nat_of_ascii c in ((9 <=? n)%nat && (n <=? 13)%nat) || (n =? 32)%nat.

Definition is_upper (c : ascii) : bool :=
  let n := nat_of_ascii c in (65 <=? n)%nat && (n <=? 90)%nat.

Definition is_lower (c : ascii) : bool :=
  let n := nat_of_ascii c in (97 <=? n)%nat && (n <=? 122)%nat.

Fixpoint all_chars (p : ascii -> bool) (s : string) : bool :=
  match s with
  | EmptyString => true
  | String c r => p c && all_chars p r
  end.

(** [s.isdigit()]: at least one character, all of them digits. *)
Definition isdigit (s : string) : bool :=
  match s with
  | EmptyString => false
  | _ => all_chars is_digit s
  end.

Definition upper_char (c : ascii) : ascii :=
  if is_lower c then ascii_of_nat (nat_of_ascii c - 32) else c.

(** [s.upper()]. *)
Fixpoint upper (s : string) : string :=
  match s with
  | EmptyString => EmptyString
  | String c r => String (upper_char c) (upper r)
  end.

(** [s[0]], [None] standing for [IndexError]. *)
Definition first (s : string) : option ascii :=
  match s with
  | EmptyString => None
  | String c _ => Some c
  end.

(** [s[-1]]. *)
Fixpoint last (s : string) : option ascii :=
  match s with
  | EmptyString => None
  | String c EmptyString => Some c
  | String _ r => last r
  end.

(** [s[:-1]]. *)
Fixpoint drop_last (s : string) : string :=
  match s with
  | EmptyString => EmptyString
  | String _ EmptyString => EmptyString
  | String c r => String c (drop_last r)
  end.

(** [s[1:-1]]. *)
Definition slice_1_m1 (s : string) : string :=
  match s with
  | EmptyString => EmptyString
  | String _ r => drop_last r
  end.

(** [len(s)]. *)
Definition len (s : string) : Z := Z.of_nat (String.length s).

Definition digit_val (c : ascii) : Z := Z.of_nat (nat_of_ascii c) - 48.

(** The value of a run of decimal digits, most significant first. *)
Fixpoint digits_val (acc : Z) (s : string) : Z :=
  match s with
  | EmptyString => acc
  | String c r => digits_val (10 * acc + digit_val c) r
  end.

Fixpoint lstrip (s : string) : string :=
  match s with
  | String c r => if is_space c then lstrip r else s
  | EmptyString => EmptyString
  end.

(** Splits a string into its leading digits and the rest. *)
Fixpoint span_digits (s : string) : string * string :=
  match s with
  | String c r =>
      if is_digit c then
        let '(d, t) := span_digits r in (String c d, t)
      else (EmptyString, s)
  | EmptyString => (EmptyString, EmptyString)
  end.

(** [int(s)] on a [str], [None] standing for [ValueError].  CPython 2
    skips white space, reads an optional sign, skips white space again,
    wants at least one decimal digit and then only white space. *)
Definition int_of_str (s : string) : option Z :=
  let s1 := lstrip s in
  let '(neg, s2) :=
    match s1 with
    | String "-" r => (true, r)
    | String "+" r => (false, r)
    | _ => (false, s1)
    end in
  let '(d, t) := span_digits (lstrip s2) in
  match d with
  | EmptyString => None
  | _ =>
      match lstrip t with
      | EmptyString =>
          let v := digits_val 0 d in Some (if neg then - v else v)
      | _ => None
      end
  end.

(** Decimal rendering of a natural number, as [str] of an [int] gives. *)
Fixpoint nat_digits (fuel : nat) (n : N) (acc : string) : string :=
  match fuel with
  | O => acc
  | S f =>
      let acc' := String (ascii_of_N (48 + n mod 10)) acc in
      if (n <? 10)%N then acc' else nat_digits f (n / 10)%N acc'
  end.

Definition str_of_Z (z : Z) : string :=
  let n := Z.abs_N z in
  let d := nat_digits (S (N.to_nat (N.log2 n))) n EmptyString in
  if (z <? 0)%Z then String "-" d else d.

End PyStr.

(** ** Python values and exceptions *)

(** What the parser builds: [None], an [int], a [str] or a [tuple]. *)
Inductive PyVal : Type :=
| PyNone
| PyInt (n : Z)
| PyStr (s : string)
| PyTuple (items : list PyVal).

(** The text of a [ValueError], by the place that raises it. *)
Inductive ValueMsg : Type :=
| InvalidIntLiteral (s : string)      (* int(s) on a str that is no integer *)
| CouldntParseDate (date_string : PyVal) (* "couldn't parse date %r" *)
| DateFieldRange                      (* datetime(...) with a field out of range *)
| NaiveDatetime                       (* astimezone() on a naive datetime *)
| UtcOffsetRange.                     (* a utcoffset() of a whole day or more *)

(** The text of a [ParseError]: the format string of the source, by
    name, with the values it is filled with. *)
Inductive ParseMsg : Type :=
| TupleIncomplete (out : list PyVal)  (* 'Tuple incomplete before "(%s"' *)
| NoLiteral (token : string)          (* 'No literal corresponds to %r' *)
| LiteralSize (expected actual : Z)   (* 'Expecting literal of size %d, got %d' *)
| Wrapped (err : ValueMsg) (token : string) (* "%s: %s" % (str(err), token) *)
| UnexpectedEOF                       (* 'unexpected EOF' *)
| BadResponseType (msg_response : PyVal) (* 'bad response type: %s' *)
| UnevenItems (msg_response : PyVal)  (* 'uneven number of response items: %s' *)
| IntOrError (error_text : string) (value : PyVal). (* '%s: %s' % (error_text, repr(value)) *)

(** [class ParseError(ValueError)] and the built-in exceptions that the
    module can let escape.  [RuntimeError] is what an evaluation that
    runs out of its budget gives; [never_RuntimeError] shows that none
    does (the recursion limit of the interpreter is left out of the
    model). *)
Inductive PyExc : Type :=
| ParseError (m : ParseMsg)
| ValueError (m : ValueMsg)
| TypeError
| KeyError (key : string)
| AttributeError
| IndexError
| OverflowError
| RuntimeError.

Inductive Outcome (A : Type) : Type :=
| Return (a : A)
| Raise (e : PyExc).
Arguments Return {A} a.
Arguments Raise {A} e.

Definition bind {A B : Type} (m : Outcome A) (k : A -> Outcome B) : Outcome B :=
  match m with
  | Return a => k a
  | Raise e => Raise e
  end.

Notation "x <- m ;; k" := (bind m (fun x => k))
  (at level 100, m at next level, right associativity).

(** [int(value)]: [TypeError] on [None] and on a tuple, [ValueError] on
    a [str] that is no integer. *)
Definition py_int (value : PyVal) : Outcome Z :=
  match value with
  | PyInt n => Return n
  | PyStr s =>
      match PyStr.int_of_str s with
      | Some n => Return n
      | None => Raise (ValueError (InvalidIntLiteral s))
      end
  | PyNone => Raise TypeError
  | PyTuple _ => Raise TypeError
  end.

(** ** The token source

    [response_lexer.Lexer] is not among the sources.  [atom] uses two
    things of the object [Lexer.create_token_source] returns: it iterates
    over it and it reads its attribute [current_literal].  The state of
    that object is therefore the tokens still to come, each with the
    literal that [current_literal] shows while the token is the current
    one, and the literal of the current token. *)
Record TokenSource : Type := mkSource {
  current_literal : option string;
  pending : list (string * option string)
}.

(** One step of [for token in src]. *)
Definition next_token (src : TokenSource) : option (string * TokenSource) :=
  match pending src with
  | [] => None
  | (token, lit) :: rest => Some (token, mkSource lit rest)
  end.

(** ** [atom] *)

(** The branches of [atom] for a token that is not ["("]. *)
Definition atom_leaf (src : TokenSource) (token : string) : Outcome PyVal :=
  if String.eqb token "NIL" then Return PyNone
  else
    match PyStr.first token with
    | None => Raise IndexError
    | Some c0 =>
        if Ascii.eqb c0 "{" then
          match PyStr.int_of_str (PyStr.slice_1_m1 token) with
          | None => Raise (ValueError (InvalidIntLiteral (PyStr.slice_1_m1 token)))
          | Some literal_len =>
              match current_literal src with
              | None => Raise (ParseError (NoLiteral token))
              | Some literal_text =>
                  if negb (PyStr.len literal_text =? literal_len)%Z then
                    Raise (ParseError (LiteralSize literal_len (PyStr.len literal_text)))
                  else Return (PyStr literal_text)
              end
          end
        else if (2 <=? PyStr.len token)%Z && Ascii.eqb c0 PyStr.dq
                && bool_decide (PyStr.last token = Some PyStr.dq) then
          Return (PyStr (PyStr.slice_1_m1 token))
        else if PyStr.isdigit token then Return (PyInt (PyStr.digits_val 0 token))
        else Return (PyStr token)
    end.

(** [atom(src, token)], with a budget of nested calls: [None] when the
    budget is used up.  [atom_list] is the loop [for token in src] of the
    ["("] branch, with the list [out] built so far. *)
Fixpoint atom_fuel (fuel : nat) (src : TokenSource) (token : string)
  : option (Outcome (PyVal * TokenSource)) :=
  match fuel with
  | O => None
  | S fuel' =>
      if String.eqb token "(" then atom_list fuel' src []
      else Some (v <- atom_leaf src token ;; Return (v, src))
  end
with atom_list (fuel : nat) (src : TokenSource) (out : list PyVal)
  : option (Outcome (PyVal * TokenSource)) :=
  match fuel with
  | O => None
  | S fuel' =>
      match next_token src with
      | None => Some (Raise (ParseError (TupleIncomplete out)))
      | Some (token, src') =>
          if String.eqb token ")" then Some (Return (PyTuple out, src'))
          else
            match atom_fuel fuel' src' token with
            | None => None
            | Some (Raise e) => Some (Raise e)
            | Some (Return (v, src'')) => atom_list fuel' src'' (out ++ [v])
            end
      end
  end.

(** A budget that is enough for a source: two nested calls per token. *)
Definition atom_budget (src : TokenSource) : nat :=
  2 * length (pending src) + 2.

Definition atom (src : TokenSource) (token : string) : Outcome (PyVal * TokenSource) :=
  match atom_fuel (atom_budget src) src token with
  | Some r => r
  | None => Raise RuntimeError
  end.

(** ** [gen_parsed_response] and [parse_response] *)

(** How a generator ends: [StopIteration], or an exception. *)
Inductive Terminal : Type :=
| Stop
| Raised (e : PyExc).

(** A generator that is run to its end: the values it yields, in order,
    and how it ends.  The consumer sees the values one [next()] at a
    time, and the exception only once the values before it are taken. *)
Definition Stream : Type := (list PyVal * Terminal)%type.

(** The two [except] clauses of [gen_parsed_response]; [token] is the
    token of the top level that was being read. *)
Definition wrap_error (token : string) (e : PyExc) : PyExc :=
  match e with
  | ParseError m => ParseError m
  | ValueError m => ParseError (Wrapped m token)
  | other => other
  end.

(** [for token in src: yield atom(src, token)]. *)
Fixpoint gen_loop (fuel : nat) (src : TokenSource) : Stream :=
  match fuel with
  | O => ([], Raised RuntimeError)
  | S fuel' =>
      match next_token src with
      | None => ([], Stop)
      | Some (token, src') =>
          match atom src' token with
          | Raise e => ([], Raised (wrap_error token e))
          | Return (v, src'') =>
              let '(vs, t) := gen_loop fuel' src'' in (v :: vs, t)
          end
      end
  end.

(** The generator over a token source that is already made. *)
Definition gen_parsed_response_src (src : TokenSource) : Stream :=
  gen_loop (S (length (pending src))) src.

(** [tuple(g)] for a generator [g]. *)
Definition tuple_of (g : Stream) : Outcome (list PyVal) :=
  match g with
  | (vs, Stop) => Return vs
  | (_, Raised e) => Raise e
  end.

Definition parse_response_src (src : TokenSource) : Outcome (list PyVal) :=
  tuple_of (gen_parsed_response_src src).

(** ** [str] and [repr] of parser values (Python 2) *)

Module PyRepr.

(** [sys.maxint] of a 64-bit CPython 2: beyond it an [int] is a [long],
    whose [repr] ends in [L]. *)
Definition sys_maxint : Z := 2 ^ 63 - 1.

Definition hex_digit (n : nat) : ascii :=
  if (n <? 10)%nat then ascii_of_nat (48 + n) else ascii_of_nat (87 + n).

Fixpoint contains (c : ascii) (s : string) : bool :=
  match s with
  | EmptyString => false
  | String d r => Ascii.eqb c d || contains c r
  end.

Fixpoint escape (quote : ascii) (s : string) : string :=
  match s with
  | EmptyString => EmptyString
  | String c r =>
      let n := nat_of_ascii c in
      let rest := escape quote r in
      if Ascii.eqb c quote || Ascii.eqb c "\" then String "\" (String c rest)
      else if (n =? 9)%nat then String "\" (String "t" rest)
      else if (n =? 10)%nat then String "\" (String "n" rest)
      else if (n =? 13)%nat then String "\" (String "r" rest)
      else if (n <? 32)%nat || (127 <=? n)%nat then
        String "\" (String "x" (String (hex_digit (n / 16)) (String (hex_digit (n mod 16)) rest)))
      else String c rest
  end.

(** [repr(s)] of a [str]: single quotes, unless the text has a single
    quote and no double quote. *)
Definition repr_str (s : string) : string :=
  let quote := if contains "'" s && negb (contains PyStr.dq s) then PyStr.dq else "'"%char in
  String quote (escape quote s ++ String quote EmptyString).

Definition repr_int (n : Z) : string :=
  if (sys_maxint <? n)%Z || (n <? - sys_maxint - 1)%Z
  then PyStr.str_of_Z n ++ "L" else PyStr.str_of_Z n.

Fixpoint join (sep : string) (l : list string) : string :=
  match l with
  | [] => EmptyString
  | [x] => x
  | x :: r => x ++ sep ++ join sep r
  end.

Fixpoint repr (v : PyVal) : string :=
  match v with
  | PyNone => "None"
  | PyInt n => repr_int n
  | PyStr s => repr_str s
  | PyTuple items =>
      match items with
      | [x] => "(" ++ repr x ++ ",)"
      | _ => "(" ++ join ", " (List.map repr items) ++ ")"
      end
  end.

Definition str (v : PyVal) : string :=
  match v with
  | PyStr s => s
  | PyInt n => PyStr.str_of_Z n
  | _ => repr v
  end.

(** ['... %s ...' % v]: a tuple on the right is the argument list. *)
Definition percent_s (v : PyVal) : Outcome string :=
  match v with
  | PyTuple [x] => Return (str x)
  | PyTuple _ => Raise TypeError
  | _ => Return (str v)
  end.

End PyRepr.

(** ** [datetime] *)

Module Datetime.

Local Open Scope Z_scope.

(** A [datetime.datetime]; [tzinfo] is the offset in minutes east of
    UTC of a fixed zone, or [None]. *)
Record datetime : Type := mkdt {
  year : Z; month : Z; day : Z;
  hour : Z; minute : Z; second : Z; microsecond : Z;
  tzinfo : option Z
}.

Definition MINYEAR : Z := 1.
Definition MAXYEAR : Z := 9999.
Definition MAXORDINAL : Z := 3652059.

Definition is_leap (y : Z) : bool :=
  (y mod 4 =? 0) && (negb (y mod 100 =? 0) || (y mod 400 =? 0)).

Definition days_before_month_tbl (m : Z) : Z :=
  match m with
  | 1 => 0 | 2 => 31 | 3 => 59 | 4 => 90 | 5 => 120 | 6 => 151
  | 7 => 181 | 8 => 212 | 9 => 243 | 10 => 273 | 11 => 304 | 12 => 334
  | _ => 0
  end.

Definition days_in_month_tbl (m : Z) : Z :=
  match m with
  | 1 => 31 | 2 => 28 | 3 => 31 | 4 => 30 | 5 => 31 | 6 => 30
  | 7 => 31 | 8 => 31 | 9 => 30 | 10 => 31 | 11 => 30 | 12 => 31
  | _ => 0
  end.

Definition days_in_month (y m : Z) : Z :=
  if (m =? 2) && is_leap y then 29 else days_in_month_tbl m.

Definition days_before_month (y m : Z) : Z :=
  days_before_month_tbl m + (if (2 <? m) && is_leap y then 1 else 0).

Definition days_before_year (y : Z) : Z :=
  let y1 := y - 1 in y1 * 365 + y1 / 4 - y1 / 100 + y1 / 400.

(** Day 1 is the first of January of year 1. *)
Definition ymd_to_ord (y m d : Z) : Z :=
  days_before_year y + days_before_month y m + d.

Definition DI400Y : Z := 146097.
Definition DI100Y : Z := 36524.
Definition DI4Y : Z := 1461.

Definition ord_to_ymd (ordinal : Z) : Z * Z * Z :=
  let o := ordinal - 1 in
  let n400 := o / DI400Y in
  let n := o mod DI400Y in
  let n100 := n / DI100Y in
  let n := n mod DI100Y in
  let n4 := n / DI4Y in
  let n := n mod DI4Y in
  let n1 := n / 365 in
  let n := n mod 365 in
  let y := n400 * 400 + 1 + n100 * 100 + n4 * 4 + n1 in
  if (n1 =? 4) || (n100 =? 4) then (y - 1, 12, 31)
  else
    let leapyear := (n1 =? 3) && (negb (n4 =? 24) || (n100 =? 3)) in
    let m := Z.shiftr (n + 50) 5 in
    let preceding := days_before_month_tbl m + (if (2 <? m) && leapyear then 1 else 0) in
    if n <? preceding then
      let m' := m - 1 in
      let preceding' := preceding - days_in_month y m' in
      (y, m', n - preceding' + 1)
    else (y, m, n - preceding + 1).

(** [datetime(year, month, day, hour, minute, second, microsecond,
    tzinfo)]: [ValueError] when a field is out of range. *)
Definition valid_fields (y mo d h mi s us : Z) : bool :=
  (MINYEAR <=? y) && (y <=? MAXYEAR) && (1 <=? mo) && (mo <=? 12)
  && (1 <=? d) && (d <=? days_in_month y mo)
  && (0 <=? h) && (h <=? 23) && (0 <=? mi) && (mi <=? 59)
  && (0 <=? s) && (s <=? 59) && (0 <=? us) && (us <=? 999999).

Definition new_datetime (y mo d h mi s us : Z) (tz : option Z) : Outcome datetime :=
  if valid_fields y mo d h mi s us then Return (mkdt y mo d h mi s us tz)
  else Raise (ValueError DateFieldRange).

(** Minutes from the start of day 0 to the minute of [dt], with the
    zone of [dt] left out of account. *)
Definition minutes_of (dt : datetime) : Z :=
  (ymd_to_ord (year dt) (month dt) (day dt) * 24 + hour dt) * 60 + minute dt.

(** The seconds of the same instant; what [dt] denotes when it is read
    in the zone [off] minutes east of UTC is [seconds_of dt - 60 * off]. *)
Definition seconds_of (dt : datetime) : Z :=
  minutes_of dt * 60 + second dt.

(** [dt] moved by [delta] minutes, with zone [tz]: the normalisation
    the C code does on the fields, [OverflowError] when the date leaves
    the years 1 to 9999. *)
Definition add_minutes (dt : datetime) (delta : Z) (tz : option Z) : Outcome datetime :=
  let total := minutes_of dt + delta in
  let ordinal := total / 1440 in
  let in_day := total mod 1440 in
  if (ordinal <? 1) || (MAXORDINAL <? ordinal) then Raise OverflowError
  else
    let '(y, m, d) := ord_to_ymd ordinal in
    Return (mkdt y m d (in_day / 60) (in_day mod 60) (second dt) (microsecond dt) tz).

(** What [datetime] accepts from [tzinfo.utcoffset()]: less than a day. *)
Definition utcoffset (minutes : Z) : Outcome Z :=
  if (-1440 <? minutes) && (minutes <? 1440) then Return minutes
  else Raise (ValueError UtcOffsetRange).

(** [dt.astimezone(tz)] for a fixed zone of [tz_minutes]: to UTC with
    the zone of [dt], then [tz.fromutc]. *)
Definition astimezone (dt : datetime) (tz_minutes : Z) : Outcome datetime :=
  match tzinfo dt with
  | None => Raise (ValueError NaiveDatetime)
  | Some off =>
      offset <- utcoffset off ;;
      utc <- add_minutes dt (- offset) (Some tz_minutes) ;;
      delta <- utcoffset tz_minutes ;;
      add_minutes utc delta (Some tz_minutes)
  end.

(** [dt.replace(tzinfo=None)]. *)
Definition replace_tzinfo_None (dt : datetime) : datetime :=
  mkdt (year dt) (month dt) (day dt) (hour dt) (minute dt) (second dt)
       (microsecond dt) None.

(** The month and the day of the month of the day [n] (from 0) of a
    year, as [ord_to_ymd] finds them. *)
Definition month_day (leap : bool) (n : Z) : Z * Z :=
  let m := Z.shiftr (n + 50) 5 in
  let preceding := days_before_month_tbl m + (if (2 <? m) && leap then 1 else 0) in
  if n <? preceding then
    let m' := m - 1 in
    (m', n - (preceding - (if (m' =? 2) && leap then 29 else days_in_month_tbl m')) + 1)
  else (m, n - preceding + 1).

(** [month_day] gives a month, a day of that month, and the day [n]
    back. *)
Definition month_day_ok (leap : bool) (n : Z) : bool :=
  let '(m, d) := month_day leap n in
  (days_before_month_tbl m + (if (2 <? m) && leap then 1 else 0) + d =? n + 1)
  && (1 <=? m) && (m <=? 12) && (1 <=? d)
  && (d <=? (if (m =? 2) && leap then 29 else days_in_month_tbl m)).

Fixpoint all_below (p : Z -> bool) (n : nat) : bool :=
  match n with
  | O => true
  | S n' => p (Z.of_nat n') && all_below p n'
  end.

(** The minutes [m] are of a day of the years 1 to 9999. *)
Definition in_range (m : Z) : Prop :=
  1440 <= m < 1440 * (MAXORDINAL + 1).


End Datetime.

(** ** [imaplib.InternalDate] and [imaplib.Mon2num] *)

Module Imaplib.

(** The groups of a match of [InternalDate]. *)
Record Groups : Type := mkGroups {
  g_day : string; g_mon : string; g_year : string;
  g_hour : string; g_min : string; g_sec : string;
  g_zonen : string; g_zoneh : string; g_zonem : string
}.

Fixpoint strip_prefix (p s : string) : option string :=
  match p with
  | EmptyString => Some s
  | String c p' =>
      match s with
      | String d s' => if Ascii.eqb c d then strip_prefix p' s' else None
      | EmptyString => None
      end
  end.

(** One character of a class, and the text after it. *)
Definition class (p : ascii -> bool) (s : string) : option (string * string) :=
  match s with
  | String c r => if p c then Some (String c EmptyString, r) else None
  | EmptyString => None
  end.

(** [n] characters of a class. *)
Fixpoint classes (p : ascii -> bool) (n : nat) (s : string) : option (string * string) :=
  match n with
  | O => Some (EmptyString, s)
  | S n' =>
      '(c, r) ← class p s;
      '(cs, r') ← classes p n' r;
      Some (c ++ cs, r')
  end.

Definition day_first (c : ascii) : bool :=
  Ascii.eqb c " " || Ascii.eqb c "0" || Ascii.eqb c "1" || Ascii.eqb c "2" || Ascii.eqb c "3".

Definition sign_char (c : ascii) : bool := Ascii.eqb c "-" || Ascii.eqb c "+".

(** The pattern after its leading [.*], matched at the start of [s]:
    [INTERNALDATE "dd-Mon-yyyy HH:MM:SS +zzzz"]. *)
Definition match_here (s : string) : option Groups :=
  s ← strip_prefix ("INTERNALDATE " ++ String PyStr.dq EmptyString) s;
  '(d1, s) ← class day_first s;
  '(d2, s) ← class PyStr.is_digit s;
  s ← strip_prefix "-" s;
  '(m1, s) ← class PyStr.is_upper s;
  '(m2, s) ← classes PyStr.is_lower 2 s;
  s ← strip_prefix "-" s;
  '(yr, s) ← classes PyStr.is_digit 4 s;
  s ← strip_prefix " " s;
  '(hh, s) ← classes PyStr.is_digit 2 s;
  s ← strip_prefix ":" s;
  '(mi, s) ← classes PyStr.is_digit 2 s;
  s ← strip_prefix ":" s;
  '(ss, s) ← classes PyStr.is_digit 2 s;
  s ← strip_prefix " " s;
  '(zn, s) ← class sign_char s;
  '(zh, s) ← classes PyStr.is_digit 2 s;
  '(zm, s) ← classes PyStr.is_digit 2 s;
  _ ← strip_prefix (String PyStr.dq EmptyString) s;
  Some (mkGroups (d1 ++ d2) (m1 ++ m2) yr hh mi ss zn zh zm).

(** [InternalDate.match(s)]: the leading [.*] is greedy and does not
    pass a newline, so the match is the last place of the first line
    where the rest of the pattern matches. *)
Fixpoint InternalDate_match (s : string) : option Groups :=
  match s with
  | EmptyString => match_here s
  | String c r =>
      match (if Ascii.eqb c PyStr.nl then None else InternalDate_match r) with
      | Some g => Some g
      | None => match_here s
      end
  end.

Definition Mon2num (mon : string) : option Z :=
  if String.eqb mon "Jan" then Some 1%Z
  else if String.eqb mon "Feb" then Some 2%Z
  else if String.eqb mon "Mar" then Some 3%Z
  else if String.eqb mon "Apr" then Some 4%Z
  else if String.eqb mon "May" then Some 5%Z
  else if String.eqb mon "Jun" then Some 6%Z
  else if String.eqb mon "Jul" then Some 7%Z
  else if String.eqb mon "Aug" then Some 8%Z
  else if String.eqb mon "Sep" then Some 9%Z
  else if String.eqb mon "Oct" then Some 10%Z
  else if String.eqb mon "Nov" then Some 11%Z
  else if String.eqb mon "Dec" then Some 12%Z
  else None.

End Imaplib.

(** ** The FETCH decoder *)

(** [int(s)] on a group of the pattern. *)
Definition int_group (s : string) : Outcome Z := py_int (PyStr s).

(** Modelled from the spec: [fixed_offset.FixedOffset] is not among the
    sources.  The spec has the INTERNALDATE text read "using the declared
    zone offset, then re-expressed in the host's local zone": a
    [FixedOffset(minutes)] is a zone at that many minutes east of UTC, and
    [FixedOffset.for_system()] is the zone of the host, whose offset
    [host] the decoder takes as an argument. *)
Definition FixedOffset (minutes : Z) : option Z := Some minutes.

Definition _convert_INTERNALDATE (host : Z) (date_string : PyVal)
  : Outcome Datetime.datetime :=
  text <- PyRepr.percent_s date_string ;;
  match Imaplib.InternalDate_match
          ("INTERNALDATE " ++ String PyStr.dq (text ++ String PyStr.dq EmptyString)) with
  | None => Raise (ValueError (CouldntParseDate date_string))
  | Some mo =>
      zoneh <- int_group (Imaplib.g_zoneh mo) ;;
      zonem' <- int_group (Imaplib.g_zonem mo) ;;
      let zonem := (zoneh * 60 + zonem')%Z in
      let zonem := if String.eqb (Imaplib.g_zonen mo) "-" then (- zonem)%Z else zonem in
      let tz := FixedOffset zonem in
      year <- int_group (Imaplib.g_year mo) ;;
      match Imaplib.Mon2num (Imaplib.g_mon mo) with
      | None => Raise (KeyError (Imaplib.g_mon mo))
      | Some mon =>
          day <- int_group (Imaplib.g_day mo) ;;
          hour <- int_group (Imaplib.g_hour mo) ;;
          min <- int_group (Imaplib.g_min mo) ;;
          sec <- int_group (Imaplib.g_sec mo) ;;
          dt <- Datetime.new_datetime year mon day hour min sec 0 tz ;;
          local <- Datetime.astimezone dt host ;;
          Return (Datetime.replace_tzinfo_None local)
      end
  end.

Definition _int_or_error (value : PyVal) (error_text : string) : Outcome Z :=
  match py_int value with
  | Return n => Return n
  | Raise TypeError | Raise (ValueError _) =>
      Raise (ParseError (IntOrError error_text value))
  | Raise e => Raise e
  end.

(** A value of a FETCH record: what the parser gave, or the date that
    [_convert_INTERNALDATE] made of it. *)
Inductive FieldVal : Type :=
| Raw (v : PyVal)
| Date (d : Datetime.datetime).

Abbreviation Record_ := (gmap string FieldVal).
Abbreviation Table := (gmap Z (gmap string FieldVal)).

(** [x.upper()] on a parser value: only a [str] has the method. *)
Definition py_upper (x : PyVal) : Outcome string :=
  match x with
  | PyStr s => Return (PyStr.upper s)
  | _ => Raise AttributeError
  end.

(** The loop [for i in xrange(0, len(msg_response), 2)] over what is left
    of [msg_response], with the [msg_id] and the [msg_data] so far. *)
Fixpoint fetch_fields (host : Z) (msg_id : Z) (msg_data : Record_)
         (items : list PyVal) : Outcome (Z * Record_) :=
  match items with
  | [] => Return (msg_id, msg_data)
  | name :: after =>
      word <- py_upper name ;;
      match after with
      | [] => Raise IndexError
      | value :: rest =>
          if String.eqb word "UID" then
            msg_id' <- _int_or_error value "invalid UID" ;;
            fetch_fields host msg_id' msg_data rest
          else if String.eqb word "INTERNALDATE" then
            d <- _convert_INTERNALDATE host value ;;
            fetch_fields host msg_id (<[word := Date d]> msg_data) rest
          else fetch_fields host msg_id (<[word := Raw value]> msg_data) rest
      end
  end.

(** The loop [while True] of [parse_fetch_response] over what the
    generator [response] still has to give. *)
Fixpoint fetch_loop (host : Z) (parsed_response : Table)
         (vals : list PyVal) (fin : Terminal) : Outcome Table :=
  match vals with
  | [] =>
      match fin with
      | Stop => Return parsed_response
      | Raised e => Raise e
      end
  | first :: after =>
      msg_id <- _int_or_error first "invalid message ID" ;;
      match after with
      | [] =>
          match fin with
          | Stop => Raise (ParseError UnexpectedEOF)
          | Raised e => Raise e
          end
      | msg_response :: rest =>
          match msg_response with
          | PyTuple items =>
              if Nat.odd (length items) then
                Raise (ParseError (UnevenItems msg_response))
              else
                r <- fetch_fields host msg_id {[ "SEQ" := Raw (PyInt msg_id) ]} items ;;
                fetch_loop host (<[fst r := snd r]> parsed_response) rest fin
          | _ => Raise (ParseError (BadResponseType msg_response))
          end
      end
  end.

Definition parse_fetch_response_src (host : Z) (src : TokenSource) : Outcome Table :=
  let response := gen_parsed_response_src src in
  fetch_loop host ∅ (fst response) (snd response).

(** ** The lexer, and the entry points on response text *)

Module Lexer.

(** Where the scan of the text is: in an atom, in a quoted run, or in
    a quoted run just after a backslash. *)
Inductive Mode : Type := Plain | Quoted | Escaped.

Definition push (cur : string) (c : ascii) : string :=
  cur ++ String c EmptyString.

Definition flush (cur : string) (rest : list string) : list string :=
  match cur with
  | EmptyString => rest
  | _ => cur :: rest
  end.

(** Modelled from the spec: [response_lexer.Lexer] is not among the
    sources.  The spec's token boundaries: "whitespace separates atoms;
    [(] and [)] are always standalone tokens even when adjacent to other
    text; a double-quoted run is one QuotedString token (no nested
    escaping beyond the protocol's backslash-quote rule)".  A token is
    the text it was read from, the quotes of a quoted run included:
    [atom] takes them off. *)
Fixpoint tokens (mode : Mode) (cur : string) (text : string) : list string :=
  match text with
  | EmptyString => flush cur []
  | String c r =>
      match mode with
      | Plain =>
          if PyStr.is_space c then flush cur (tokens Plain EmptyString r)
          else if Ascii.eqb c "(" || Ascii.eqb c ")" then
            flush cur (String c EmptyString :: tokens Plain EmptyString r)
          else if Ascii.eqb c PyStr.dq then
            flush cur (tokens Quoted (String c EmptyString) r)
          else tokens Plain (push cur c) r
      | Quoted =>
          if Ascii.eqb c "\" then tokens Escaped (push cur c) r
          else if Ascii.eqb c PyStr.dq then
            push cur c :: tokens Plain EmptyString r
          else tokens Quoted (push cur c) r
      | Escaped => tokens Quoted (push cur c) r
      end
  end.

(** A token "of the form [{digits}]". *)
Definition is_literal_ref (token : string) : bool :=
  match token with
  | String "{" r =>
      bool_decide (PyStr.last r = Some "}"%char) && PyStr.isdigit (PyStr.drop_last r)
  | _ => false
  end.

(** Modelled from the spec: the pairing of literal markers and
    payloads "is positional (the Nth literal marker in the text consumes
    the Nth payload in the provided list)"; a marker past the end of
    the list has no payload. *)
Fixpoint bind_literals (toks : list string) (literals : list string)
  : list (string * option string) :=
  match toks with
  | [] => []
  | t :: r =>
      if is_literal_ref t then
        match literals with
        | [] => (t, None) :: bind_literals r []
        | l :: ls => (t, Some l) :: bind_literals r ls
        end
      else (t, None) :: bind_literals r literals
  end.

Definition create_token_source (text : string) (literals : list string) : TokenSource :=
  mkSource None (bind_literals (tokens Plain EmptyString text) literals).

End Lexer.

(** [gen_parsed_response(text)], [text] being the response text with the
    literal payloads that go with it. *)
Definition gen_parsed_response (text : string) (literals : list string) : Stream :=
  match text with
  | EmptyString => ([], Stop)
  | _ => gen_parsed_response_src (Lexer.create_token_source text literals)
  end.

Definition parse_response (text : string) (literals : list string) : Outcome (list PyVal) :=
  tuple_of (gen_parsed_response text literals).

Definition parse_fetch_response (host : Z) (text : string) (literals : list string)
  : Outcome Table :=
  let response := gen_parsed_response text literals in
  fetch_loop host ∅ (fst response) (snd response).

(** A token source with no literals, for examples. *)
Definition source_of (toks : list string) : TokenSource :=
  mkSource None (List.map (fun t => (t, None)) toks).

(** ** The runs of the parser, as relations

    [atom_run src token r]: a call [atom(src, token)] ends with [r], a
    value and the source after it, or an exception.  [list_run src out r]
    is the same for the loop of the ["("] branch.  The rules follow the
    statements of the source one by one and use no budget. *)
Inductive atom_run : TokenSource -> string -> Outcome (PyVal * TokenSource) -> Prop :=
| run_open src r :
    list_run src [] r ->
    atom_run src "(" r
| run_leaf src token :
    token <> "(" ->
    atom_run src token (v <- atom_leaf src token ;; Return (v, src))
with list_run : TokenSource -> list PyVal -> Outcome (PyVal * TokenSource) -> Prop :=
| run_exhausted src out :
    next_token src = None ->
    list_run src out (Raise (ParseError (TupleIncomplete out)))
| run_close src out src' :
    next_token src = Some (")", src') ->
    list_run src out (Return (PyTuple out, src'))
| run_item_raise src out token src' e :
    next_token src = Some (token, src') ->
    token <> ")" ->
    atom_run src' token (Raise e) ->
    list_run src out (Raise e)
| run_item src out token src' v src'' r :
    next_token src = Some (token, src') ->
    token <> ")" ->
    atom_run src' token (Return (v, src'')) ->
    list_run src'' (out ++ [v]) r ->
    list_run src out r.

Scheme atom_run_mut := Minimality for atom_run Sort Prop
  with list_run_mut := Minimality for list_run Sort Prop.
Combined Scheme atom_list_run_ind from atom_run_mut, list_run_mut.

(** [gen_run src g]: the generator over [src], run to its end, is [g]. *)
Inductive gen_run : TokenSource -> Stream -> Prop :=
| gen_stop src :
    next_token src = None ->
    gen_run src ([], Stop)
| gen_raise src token src' e :
    next_token src = Some (token, src') ->
    atom_run src' token (Raise e) ->
    gen_run src ([], Raised (wrap_error token e))
| gen_yield src token src' v src'' vs t :
    next_token src = Some (token, src') ->
    atom_run src' token (Return (v, src'')) ->
    gen_run src'' (vs, t) ->
    gen_run src (v :: vs, t).



(** ** What the statements below speak of *)

(** The tokens a source still has to give. *)
Definition tokens_of (src : TokenSource) : list string :=
  List.map fst (pending src).

(** The nesting depth after a run of tokens that starts at depth [d]; a
    [")"] at depth 0 closes nothing (the generator reads it as an atom). *)
Fixpoint depth_after (d : nat) (toks : list string) : nat :=
  match toks with
  | [] => d
  | t :: r =>
      if String.eqb t "(" then depth_after (S d) r
      else if String.eqb t ")" then depth_after (Nat.pred d) r
      else depth_after d r
  end.



(** A literal marker [{N}]: what [atom] reads as one, with its [N]. *)
Definition literal_marker (token : string) : option Z :=
  if String.eqb token "(" || String.eqb token "NIL" then None
  else
    match PyStr.first token with
    | Some c0 => if Ascii.eqb c0 "{" then PyStr.int_of_str (PyStr.slice_1_m1 token) else None
    | None => None
    end.

(** The token is no marker, or its payload is there and has the length
    the marker declares. *)
Definition literal_bound (tl : string * option string) : bool :=
  match literal_marker (fst tl) with
  | None => true
  | Some n =>
      match snd tl with
      | Some text => (PyStr.len text =? n)%Z
      | None => false
      end
  end.

(** The keys that the fields of a message put into its record: the
    upper-cased names of the fields that are not named UID. *)
Fixpoint field_names (items : list PyVal) : list string :=
  match items with
  | name :: _ :: rest =>
      match name with
      | PyStr s =>
          if String.eqb (PyStr.upper s) "UID" then field_names rest
          else PyStr.upper s :: field_names rest
      | _ => field_names rest
      end
  | _ => []
  end.

(** The value of the last field whose upper-cased name is [word], or
    [found] when there is none. *)
Fixpoint field_value_from (word : string) (found : option PyVal) (items : list PyVal)
  : option PyVal :=
  match items with
  | name :: value :: rest =>
      match name with
      | PyStr s =>
          if String.eqb (PyStr.upper s) word then field_value_from word (Some value) rest
          else field_value_from word found rest
      | _ => field_value_from word found rest
      end
  | _ => found
  end.

Definition field_value (word : string) (items : list PyVal) : option PyVal :=
  field_value_from word None items.

(** The key under which a message is stored: the [int] of its last UID
    field, or of its message number when it has no UID field. *)
Definition message_key (first : PyVal) (items : list PyVal) : Outcome Z :=
  match field_value "UID" items with
  | Some value => py_int value
  | None => py_int first
  end.

(** The keys of the messages of a batch. *)
Fixpoint stored_keys (vals : list PyVal) : list Z :=
  match vals with
  | first :: PyTuple items :: rest =>
      match message_key first items with
      | Return k => k :: stored_keys rest
      | Raise _ => stored_keys rest
      end
  | _ :: _ :: rest => stored_keys rest
  | _ => []
  end.

(** The messages of a batch: the values two by two. *)
Fixpoint messages (vals : list PyVal) : list (PyVal * PyVal) :=
  match vals with
  | first :: msg_response :: rest => (first, msg_response) :: messages rest
  | _ => []
  end.

(** Some [")"] of the tokens, read from depth [d] on, is met at depth 0. *)
Fixpoint top_close (d : nat) (toks : list string) : bool :=
  match toks with
  | [] => false
  | t :: r =>
      if String.eqb t "(" then top_close (S d) r
      else if String.eqb t ")" then (d =? 0)%nat || top_close (Nat.pred d) r
      else top_close d r
  end.

(** The source that gives [token] first, with no literal of its own,
    and then goes on as [src]. *)
Definition push_token (token : string) (src : TokenSource) : TokenSource :=
  mkSource None ((token, current_literal src) :: pending src).


(** [decoded host first items k rec]: the message of number [first] and
    fields [items] is decoded to the record [rec], to be stored under
    the key [k]. *)
Definition decoded (host : Z) (first : PyVal) (items : list PyVal)
           (k : Z) (rec : gmap string FieldVal) : Prop :=
  exists s, py_int first = Return s /\
    Nat.odd (length items) = false /\
    fetch_fields host s {[ "SEQ" := Raw (PyInt s) ]} items = Return (k, rec).

(** What the groups of a match denote: the fields of the date and of
    the time, and the zone in minutes east of UTC. *)
Definition denoted (mo : Imaplib.Groups) : option (Datetime.datetime * Z) :=
  zoneh ← PyStr.int_of_str (Imaplib.g_zoneh mo);
  zonem ← PyStr.int_of_str (Imaplib.g_zonem mo);
  year ← PyStr.int_of_str (Imaplib.g_year mo);
  mon ← Imaplib.Mon2num (Imaplib.g_mon mo);
  day ← PyStr.int_of_str (Imaplib.g_day mo);
  hour ← PyStr.int_of_str (Imaplib.g_hour mo);
  min ← PyStr.int_of_str (Imaplib.g_min mo);
  sec ← PyStr.int_of_str (Imaplib.g_sec mo);
  let zone := (zoneh * 60 + zonem)%Z in
  Some (Datetime.mkdt year mon day hour min sec 0 None,
        if String.eqb (Imaplib.g_zonen mo) "-" then (- zone)%Z else zone).

(** The text that [InternalDate] is matched against. *)
Definition internaldate_text (text : string) : string :=
  "INTERNALDATE " ++ String PyStr.dq (text ++ String PyStr.dq EmptyString).

(** The fields of a [datetime] are in the ranges [datetime(...)] wants. *)
Definition valid_datetime (dt : Datetime.datetime) : bool :=
  Datetime.valid_fields (Datetime.year dt) (Datetime.month dt) (Datetime.day dt)
    (Datetime.hour dt) (Datetime.minute dt) (Datetime.second dt) (Datetime.microsecond dt).




(** The values of the fields whose upper-cased name is [word], in order. *)
Fixpoint field_values (word : string) (items : list PyVal) : list PyVal :=
  match items with
  | name :: value :: rest =>
      match name with
      | PyStr s =>
          if String.eqb (PyStr.upper s) word then value :: field_values word rest
          else field_values word rest
      | _ => field_values word rest
      end
  | _ => []
  end.

(** The source [src] with the tokens [extra] after its own. *)
Definition extend (src : TokenSource) (extra : list (string * option string)) : TokenSource :=
  mkSource (current_literal src) (pending src ++ extra).

(** The tokens that write a value: [NIL], the decimal digits of an
    [int], a text between double quotes, a tuple between parentheses. *)
Fixpoint unparse (v : PyVal) : list string :=
  match v with
  | PyNone => ["NIL"]
  | PyInt n => [PyStr.str_of_Z n]
  | PyStr s => [PyStr.quoted s]
  | PyTuple items => "(" :: List.concat (List.map unparse items) ++ [")"]
  end.

(** The values that [unparse] writes so that they can be read back:
    those whose integers are not negative (a token with a sign is not
    all digits, and [atom] reads it as a text). *)
Fixpoint writable (v : PyVal) : bool :=
  match v with
  | PyInt n => (0 <=? n)%Z
  | PyTuple items => forallb writable items
  | _ => true
  end.

(** The date and the time of the text, made a [datetime] and taken to
    the zone of the host. *)
Definition localised (host : Z) (dt : Datetime.datetime) (zone : Z)
  : Outcome Datetime.datetime :=
  d <- Datetime.new_datetime (Datetime.year dt) (Datetime.month dt) (Datetime.day dt)
         (Datetime.hour dt) (Datetime.minute dt) (Datetime.second dt) 0 (Some zone) ;;
  local <- Datetime.astimezone d host ;;
  Return (Datetime.replace_tzinfo_None local).


(** The field list [items] with its field names in upper case, and the
    values [vals] of a response with the field names of every message in
    upper case. *)
Fixpoint upper_names (items : list PyVal) : list PyVal :=
  match items with
  | PyStr name :: value :: rest => PyStr (PyStr.upper name) :: value :: upper_names rest
  | _ => items
  end.

Fixpoint upper_fields (vals : list PyVal) : list PyVal :=
  match vals with
  | first :: PyTuple items :: rest => first :: PyTuple (upper_names items) :: upper_fields rest
  | _ => vals
  end.

(** * Properties *)

(** ** The budget of [atom] is enough *)

Lemma next_token_length src token src' :
  next_token src = Some (token, src') ->
  length (pending src) = S (length (pending src')).
Proof.
  unfold next_token. destruct (pending src) as [|[t l] rest] eqn:E; [discriminate|].
  intros [= <- <-]. reflexivity.
Qed.

Lemma next_token_pending src token src' :
  next_token src = Some (token, src') ->
  pending src = (token, current_literal src') :: pending src'.
Proof.
  unfold next_token. destruct (pending src) as [|[t l] rest] eqn:E; [discriminate|].
  intros [= <- <-]. reflexivity.
Qed.

Lemma next_token_None src :
  next_token src = None -> pending src = [].
Proof.
  unfold next_token. destruct (pending src) as [|[t l] rest]; [reflexivity|discriminate].
Qed.

(** More budget does not change a result. *)
Lemma atom_fuel_mono fuel :
  (forall src token r fuel', atom_fuel fuel src token = Some r ->
     (fuel <= fuel')%nat -> atom_fuel fuel' src token = Some r) /\
  (forall src out r fuel', atom_list fuel src out = Some r ->
     (fuel <= fuel')%nat -> atom_list fuel' src out = Some r).
Proof.
  induction fuel as [|fuel [IHa IHl]]; [split; intros; discriminate|].
  split.
  - intros src token r [|fuel'] H Hle; [lia|]. simpl in *.
    destruct (String.eqb token "("); [|exact H].
    apply IHl; [exact H|lia].
  - intros src out r [|fuel'] H Hle; [lia|]. simpl in *.
    destruct (next_token src) as [[token src']|]; [|exact H].
    destruct (String.eqb token ")"); [exact H|].
    destruct (atom_fuel fuel src' token) as [[[v src'']|e]|] eqn:E; [| |discriminate].
    + rewrite (IHa _ _ _ fuel' E) by lia. apply IHl; [exact H|lia].
    + rewrite (IHa _ _ _ fuel' E) by lia. exact H.
Qed.

(** [atom] gives back a source that is no longer than the one it got. *)
Lemma atom_fuel_length fuel :
  (forall src token v src', atom_fuel fuel src token = Some (Return (v, src')) ->
     (length (pending src') <= length (pending src))%nat) /\
  (forall src out v src', atom_list fuel src out = Some (Return (v, src')) ->
     (length (pending src') <= length (pending src))%nat).
Proof.
  induction fuel as [|fuel [IHa IHl]]; [split; intros; discriminate|].
  split.
  - intros src token v src' H. simpl in H.
    destruct (String.eqb token "("); [eapply IHl; exact H|].
    destruct (atom_leaf src token); simpl in H; [|discriminate].
    injection H as <- <-. lia.
  - intros src out v src' H. simpl in H.
    destruct (next_token src) as [[token s1]|] eqn:N; [|discriminate].
    apply next_token_length in N.
    destruct (String.eqb token ")"); [injection H as <- <-; lia|].
    destruct (atom_fuel fuel s1 token) as [[[v1 s2]|e]|] eqn:E; [| discriminate | discriminate].
    apply IHa in E. apply IHl in H. lia.
Qed.

Lemma atom_fuel_enough fuel :
  (forall src token, (2 * length (pending src) + 2 <= fuel)%nat ->
     exists r, atom_fuel fuel src token = Some r) /\
  (forall src out, (2 * length (pending src) + 1 <= fuel)%nat ->
     exists r, atom_list fuel src out = Some r).
Proof.
  induction fuel as [|fuel [IHa IHl]]; [split; intros; lia|].
  split.
  - intros src token H. simpl.
    destruct (String.eqb token "("); [apply IHl; lia|eauto].
  - intros src out H. simpl.
    destruct (next_token src) as [[token s1]|] eqn:N; [|eauto].
    pose proof (next_token_length _ _ _ N) as L.
    destruct (String.eqb token ")"); [eauto|].
    destruct (IHa s1 token) as [r E]; [lia|]. rewrite E.
    destruct r as [[v s2]|e]; [|eauto].
    apply (proj1 (atom_fuel_length fuel)) in E.
    apply IHl. lia.
Qed.

(** The budget [atom] gives itself is enough: [atom] is the result of
    [atom_fuel] at any budget that gives one. *)
Lemma atom_budget_enough src token :
  atom_fuel (atom_budget src) src token = Some (atom src token).
Proof.
  unfold atom.
  destruct (proj1 (atom_fuel_enough (atom_budget src)) src token) as [r E];
    [unfold atom_budget; lia|].
  rewrite E. reflexivity.
Qed.

Lemma atom_fuel_atom fuel src token r :
  atom_fuel fuel src token = Some r -> atom src token = r.
Proof.
  intros H. pose proof (atom_budget_enough src token) as B.
  apply (proj1 (atom_fuel_mono _)) with (fuel' := Nat.max fuel (atom_budget src)) in H; [|lia].
  apply (proj1 (atom_fuel_mono _)) with (fuel' := Nat.max fuel (atom_budget src)) in B; [|lia].
  congruence.
Qed.

(** ** The function and the runs agree *)

Lemma atom_fuel_run fuel :
  (forall src token r, atom_fuel fuel src token = Some r -> atom_run src token r) /\
  (forall src out r, atom_list fuel src out = Some r -> list_run src out r).
Proof.
  induction fuel as [|fuel [IHa IHl]]; [split; intros; discriminate|].
  split.
  - intros src token r H. simpl in H.
    destruct (String.eqb_spec token "(") as [->|Hne].
    + apply run_open. apply IHl. exact H.
    + injection H as <-. apply run_leaf. exact Hne.
  - intros src out r H. simpl in H.
    destruct (next_token src) as [[token s1]|] eqn:N.
    + destruct (String.eqb_spec token ")") as [->|Hne].
      * injection H as <-. apply run_close. exact N.
      * destruct (atom_fuel fuel s1 token) as [[[v s2]|e]|] eqn:E; [| |discriminate].
        -- eapply run_item; eauto.
        -- injection H as <-. eapply run_item_raise; eauto.
    + injection H as <-. apply run_exhausted. exact N.
Qed.

Lemma atom_run_fuel :
  (forall src token r, atom_run src token r -> exists fuel, atom_fuel fuel src token = Some r) /\
  (forall src out r, list_run src out r -> exists fuel, atom_list fuel src out = Some r).
Proof.
  apply atom_list_run_ind.
  - intros src r _ [fuel H]. exists (S fuel). simpl. exact H.
  - intros src token Hne. exists 1%nat. simpl.
    destruct (String.eqb_spec token "("); [contradiction|reflexivity].
  - intros src out N. exists 1%nat. simpl. rewrite N. reflexivity.
  - intros src out src' N. exists 1%nat. simpl. rewrite N. reflexivity.
  - intros src out token src' e N Hne _ [fuel H]. exists (S fuel). simpl. rewrite N.
    destruct (String.eqb_spec token ")"); [contradiction|]. rewrite H. reflexivity.
  - intros src out token src' v src'' r N Hne _ [f1 H1] _ [f2 H2].
    exists (S (Nat.max f1 f2)). simpl. rewrite N.
    destruct (String.eqb_spec token ")"); [contradiction|].
    rewrite (proj1 (atom_fuel_mono f1) _ _ _ (Nat.max f1 f2) H1) by lia.
    apply (proj2 (atom_fuel_mono f2)) with (fuel' := Nat.max f1 f2) in H2; [exact H2|lia].
Qed.

(** Every run of [atom] ends with what the function [atom] gives. *)
Lemma atom_run_atom src token r :
  atom_run src token r <-> atom src token = r.
Proof.
  split.
  - intros H. destruct (proj1 atom_run_fuel _ _ _ H) as [fuel E].
    eapply atom_fuel_atom; eauto.
  - intros <-. eapply (proj1 (atom_fuel_run _)). apply atom_budget_enough.
Qed.

Lemma atom_Return_length src token v src' :
  atom src token = Return (v, src') ->
  (length (pending src') <= length (pending src))%nat.
Proof.
  intros H. pose proof (atom_budget_enough src token) as B. rewrite H in B.
  eapply (proj1 (atom_fuel_length _)); eauto.
Qed.

Lemma gen_loop_run fuel src :
  (length (pending src) < fuel)%nat -> gen_run src (gen_loop fuel src).
Proof.
  revert src. induction fuel as [|fuel IH]; intros src H; [lia|].
  simpl. destruct (next_token src) as [[token s1]|] eqn:N.
  - pose proof (next_token_length _ _ _ N) as L.
    destruct (atom s1 token) as [[v s2]|e] eqn:A.
    + pose proof (atom_Return_length _ _ _ _ A) as L2.
      destruct (gen_loop fuel s2) as [vs t] eqn:G.
      eapply gen_yield; eauto.
      * apply atom_run_atom. exact A.
      * rewrite <- G. apply IH. lia.
    + eapply gen_raise; eauto. apply atom_run_atom. exact A.
  - apply gen_stop. exact N.
Qed.

Lemma gen_run_deterministic src g1 :
  gen_run src g1 -> forall g2, gen_run src g2 -> g1 = g2.
Proof.
  induction 1 as [src N|src token s1 e N A|src token s1 v s2 vs t N A G IH];
    intros g2 H2; inversion H2; subst; try congruence.
  - rewrite N in *. simplify_eq.
    match goal with H : atom_run _ _ (Raise ?e') |- _ =>
      apply atom_run_atom in H; apply atom_run_atom in A; congruence end.
  - rewrite N in *. simplify_eq.
    match goal with H : atom_run _ _ (Return _) |- _ =>
      apply atom_run_atom in H; apply atom_run_atom in A; congruence end.
  - rewrite N in *. simplify_eq.
    match goal with H : atom_run _ _ (Raise _) |- _ =>
      apply atom_run_atom in H; apply atom_run_atom in A; congruence end.
  - rewrite N in *. simplify_eq.
    match goal with H : atom_run _ _ (Return _) |- _ =>
      apply atom_run_atom in H; apply atom_run_atom in A end.
    rewrite A in *. simplify_eq.
    f_equal; [|]; match goal with H : gen_run _ _ |- _ => apply IH in H; congruence end.
Qed.

Lemma gen_run_gen src g :
  gen_run src g <-> gen_parsed_response_src src = g.
Proof.
  split.
  - intros H. eapply gen_run_deterministic; [|exact H].
    apply gen_loop_run. lia.
  - intros <-. apply gen_loop_run. lia.
Qed.

(** ** What a run that returns has read *)

Lemma atom_leaf_current src token :
  atom_leaf src token = atom_leaf (mkSource (current_literal src) []) token.
Proof. destruct src. reflexivity. Qed.

Lemma depth_after_app d a b :
  depth_after d (a ++ b) = depth_after (depth_after d a) b.
Proof.
  revert d. induction a as [|t a IH]; intros d; simpl; [reflexivity|].
  destruct (String.eqb t "("); [apply IH|].
  destruct (String.eqb t ")"); apply IH.
Qed.

(** A leaf that [atom] returns a value for has its literal, when it is a
    marker, at the declared length; and the value is that very literal. *)
Lemma atom_leaf_Return_bound src token v :
  token <> "(" ->
  atom_leaf src token = Return v ->
  literal_bound (token, current_literal src) = true.
Proof.
  intros Hne H. unfold literal_bound, literal_marker. simpl.
  destruct (String.eqb_spec token "("); [contradiction|]. simpl.
  unfold atom_leaf in H.
  destruct (String.eqb token "NIL"); [reflexivity|].
  destruct (PyStr.first token) as [c0|]; [|reflexivity].
  destruct (Ascii.eqb c0 "{"); [|reflexivity].
  destruct (PyStr.int_of_str (PyStr.slice_1_m1 token)) as [size|]; [|reflexivity].
  destruct (current_literal src) as [text|]; [|discriminate].
  destruct (PyStr.len text =? size)%Z eqn:E; [reflexivity|discriminate].
Qed.

Lemma atom_run_consumed :
  (forall src token r, atom_run src token r ->
     forall v src', r = Return (v, src') ->
     exists consumed,
       pending src = (consumed ++ pending src')%list /\
       Forall (fun tl => literal_bound tl = true) ((token, current_literal src) :: consumed) /\
       (token <> "(" -> consumed = []) /\
       (token <> ")" -> forall d, depth_after d (token :: List.map fst consumed) = d)) /\
  (forall src out r, list_run src out r ->
     forall v src', r = Return (v, src') ->
     exists consumed,
       pending src = (consumed ++ pending src')%list /\
       Forall (fun tl => literal_bound tl = true) consumed /\
       (forall d, depth_after (S d) (List.map fst consumed) = d)).
Proof.
  apply atom_list_run_ind.
  - intros src r _ IH v src' ->. destruct (IH _ _ eq_refl) as (c & Hp & Hb & Hd).
    exists c. split; [exact Hp|]. split; [|split].
    + constructor; [reflexivity|exact Hb].
    + intros Hne. contradiction.
    + intros _ d. simpl. apply Hd.
  - intros src token Hne v src' H.
    destruct (atom_leaf src token) as [w|e] eqn:L; simpl in H; [|discriminate].
    injection H as <- <-. exists []. split; [reflexivity|]. split; [|split].
    + constructor; [|constructor]. eapply atom_leaf_Return_bound; eauto.
    + reflexivity.
    + intros Hc d. simpl.
      destruct (String.eqb_spec token "("); [contradiction|].
      destruct (String.eqb_spec token ")"); [contradiction|reflexivity].
  - intros; discriminate.
  - intros src out s1 N v src' [= <- <-].
    exists [(")", current_literal s1)]. split; [apply next_token_pending; exact N|].
    split; [constructor; [reflexivity|constructor]|]. intros d. reflexivity.
  - intros; discriminate.
  - intros src out token s1 v s2 r N Hne _ IHa _ IHl w src' ->.
    destruct (IHa _ _ eq_refl) as (c1 & Hp1 & Hb1 & _ & Hd1).
    destruct (IHl _ _ eq_refl) as (c2 & Hp2 & Hb2 & Hd2).
    exists ((token, current_literal s1) :: c1 ++ c2)%list. split.
    + rewrite (next_token_pending _ _ _ N), Hp1, Hp2. simpl. rewrite <- app_assoc. reflexivity.
    + split.
      * inversion Hb1; subst. constructor; [assumption|]. apply Forall_app; split; assumption.
      * intros d. specialize (Hd1 Hne (S d)).
        rewrite List.map_cons, List.map_app. simpl fst.
        change (token :: List.map fst c1 ++ List.map fst c2)%list
          with ((token :: List.map fst c1) ++ List.map fst c2)%list.
        rewrite depth_after_app, Hd1. apply Hd2.
Qed.


(** ** What a run that raises has met *)

Section RaiseInvariant.

Variable P : string * option string -> Prop.
Variable Q : PyExc -> Prop.
Hypothesis leaf_Q : forall src token e,
  P (token, current_literal src) -> atom_leaf src token = Raise e -> Q e.
Hypothesis incomplete_Q : forall out, Q (ParseError (TupleIncomplete out)).

Lemma atom_run_raise :
  (forall src token r, atom_run src token r ->
     P (token, current_literal src) -> Forall P (pending src) ->
     forall e, r = Raise e -> Q e) /\
  (forall src out r, list_run src out r ->
     Forall P (pending src) ->
     forall e, r = Raise e -> Q e).
Proof.
  apply atom_list_run_ind.
  - intros src r _ IH _ HP e ->. eapply IH; eauto.
  - intros src token Hne HP _ e H.
    destruct (atom_leaf src token) as [w|e1] eqn:L; simpl in H; [discriminate|].
    injection H as <-. eapply leaf_Q; eauto.
  - intros src out _ _ e [= <-]. apply incomplete_Q.
  - intros; discriminate.
  - intros src out token s1 e N Hne _ IH HP e1 [= <-].
    rewrite (next_token_pending _ _ _ N) in HP. inversion HP; subst.
    eapply IH; eauto.
  - intros src out token s1 v s2 r N Hne A _ _ IHl HP e ->.
    rewrite (next_token_pending _ _ _ N) in HP. inversion HP; subst.
    destruct (proj1 atom_run_consumed _ _ _ A _ _ eq_refl) as (c & Hp & _).
    eapply IHl; [|reflexivity].
    match goal with H : Forall P (pending s1) |- _ => rewrite Hp in H;
      apply Forall_app in H; apply H end.
Qed.

Lemma gen_run_raise src g :
  gen_run src g -> Forall P (pending src) ->
  forall e, snd g = Raised e -> exists token e0, e = wrap_error token e0 /\ Q e0.
Proof.
  induction 1 as [src N|src token s1 e0 N A|src token s1 v s2 vs t N A G IH];
    simpl; intros HP e Ht; [discriminate| |].
  - injection Ht as <-. exists token, e0. split; [reflexivity|].
    rewrite (next_token_pending _ _ _ N) in HP. inversion HP; subst.
    eapply (proj1 atom_run_raise); eauto.
  - apply IH; [|exact Ht].
    rewrite (next_token_pending _ _ _ N) in HP. inversion HP; subst.
    destruct (proj1 atom_run_consumed _ _ _ A _ _ eq_refl) as (c & Hp & _).
    match goal with H : Forall P (pending s1) |- _ => rewrite Hp in H;
      apply Forall_app in H; apply H end.
Qed.

End RaiseInvariant.




Lemma top_close_app d a b :
  top_close d (a ++ b)%list = top_close d a || top_close (depth_after d a) b.
Proof.
  revert d. induction a as [|t a IH]; intros d; simpl; [reflexivity|].
  destruct (String.eqb t "("); [apply IH|].
  destruct (String.eqb t ")"); [rewrite IH; apply orb_assoc|apply IH].
Qed.


(** ** Equations of [atom] and of the entry points *)


Lemma parse_response_src_cases src :
  let g := gen_parsed_response_src src in
  gen_run src g /\
  ((snd g = Stop /\ parse_response_src src = Return (fst g)) \/
   (exists e, snd g = Raised e /\ parse_response_src src = Raise e)).
Proof.
  intros g. split; [apply gen_run_gen; reflexivity|].
  unfold parse_response_src. fold g. destruct g as [vs [|e]]; simpl; eauto.
Qed.


(** ** Digits, and the markers the lexer makes *)

Lemma digit_not_space c : PyStr.is_digit c = true -> PyStr.is_space c = false.
Proof.
  unfold PyStr.is_digit, PyStr.is_space. intros H.
  apply andb_true_iff in H as [H1 H2].
  apply Nat.leb_le in H1. apply Nat.leb_le in H2.
  apply orb_false_iff. split.
  - apply andb_false_iff. right. apply Nat.leb_gt. lia.
  - apply Nat.eqb_neq. lia.
Qed.

Lemma digit_not_sign c (r : string) :
  PyStr.is_digit c = true ->
  match String c r with
  | String "-" r' => (true, r')
  | String "+" r' => (false, r')
  | _ => (false, String c r)
  end = (false, String c r).
Proof.
  intros H.
  destruct c as [[] [] [] [] [] [] [] []]; try reflexivity; cbv in H; discriminate.
Qed.

Lemma span_digits_all s :
  PyStr.all_chars PyStr.is_digit s = true -> PyStr.span_digits s = (s, EmptyString).
Proof.
  induction s as [|c r IH]; simpl; [reflexivity|].
  intros H. apply andb_true_iff in H as [H1 H2]. rewrite H1, (IH H2). reflexivity.
Qed.

(** [int] of a text of digits is the number the digits spell. *)
Lemma int_of_str_digits s :
  PyStr.isdigit s = true -> PyStr.int_of_str s = Some (PyStr.digits_val 0 s).
Proof.
  destruct s as [|c r]; [discriminate|]. unfold PyStr.isdigit. intros H.
  pose proof H as H'. simpl in H'. apply andb_true_iff in H' as [Hc Hr].
  unfold PyStr.int_of_str.
  assert (L : PyStr.lstrip (String c r) = String c r)
    by (simpl; rewrite (digit_not_space _ Hc); reflexivity).
  rewrite L, (digit_not_sign c r Hc), L, (span_digits_all _ H). reflexivity.
Qed.




(** ** The FETCH decoder *)

Lemma list_pair_ind {A : Type} (P : list A -> Prop) :
  P [] -> (forall x, P [x]) -> (forall x y l, P l -> P (x :: y :: l)) ->
  forall l, P l.
Proof.
  intros H0 H1 H2.
  assert (forall l, P l /\ forall x, P (x :: l)) as H.
  { induction l as [|y l [IH1 IH2]]; split; auto. }
  intros l. apply H.
Qed.

Lemma int_or_error_Return value error_text n :
  _int_or_error value error_text = Return n <-> py_int value = Return n.
Proof.
  unfold _int_or_error. destruct value as [|m|s|l]; simpl; try (split; discriminate).
  - reflexivity.
  - destruct (PyStr.int_of_str s); simpl; [reflexivity|split; discriminate].
Qed.

Lemma int_or_error_Raise value error_text e :
  py_int value = Raise e ->
  _int_or_error value error_text = Raise (ParseError (IntOrError error_text value)).
Proof.
  unfold _int_or_error. destruct value as [|m|s|l]; simpl; try reflexivity.
  - discriminate.
  - destruct (PyStr.int_of_str s); simpl; [discriminate|reflexivity].
Qed.

Lemma int_or_error_cases value error_text :
  (exists n, py_int value = Return n /\ _int_or_error value error_text = Return n) \/
  _int_or_error value error_text = Raise (ParseError (IntOrError error_text value)).
Proof.
  destruct (py_int value) as [n|e] eqn:E.
  - left. exists n. split; [reflexivity|]. apply int_or_error_Return. exact E.
  - right. eapply int_or_error_Raise; eauto.
Qed.

(** The loop over the fields can be cut after any field it got through. *)
Lemma fetch_fields_app host pre : forall msg_id msg_data msg_id' msg_data' rest,
  fetch_fields host msg_id msg_data pre = Return (msg_id', msg_data') ->
  fetch_fields host msg_id msg_data (pre ++ rest) = fetch_fields host msg_id' msg_data' rest.
Proof.
  induction pre as [|x|name value pre IH] using list_pair_ind;
    intros msg_id msg_data msg_id' msg_data' rest H.
  - injection H as <- <-. reflexivity.
  - simpl in H. destruct (py_upper x); discriminate.
  - simpl in *. destruct (py_upper name) as [word|]; simpl in *; [|discriminate].
    destruct (String.eqb word "UID").
    + destruct (_int_or_error value "invalid UID"); simpl in *; [|discriminate]. eauto.
    + destruct (String.eqb word "INTERNALDATE"); [|eauto].
      destruct (_convert_INTERNALDATE host value); simpl in *; [|discriminate]. eauto.
Qed.

(** One turn of the loop over the fields, read backwards. *)
Lemma fetch_fields_cons_Return host msg_id msg_data name value items r :
  fetch_fields host msg_id msg_data (name :: value :: items) = Return r ->
  exists s, name = PyStr s /\
    ((PyStr.upper s = "UID" /\ exists u, py_int value = Return u /\
        fetch_fields host u msg_data items = Return r) \/
     (PyStr.upper s = "INTERNALDATE" /\ exists d,
        _convert_INTERNALDATE host value = Return d /\
        fetch_fields host msg_id (<[PyStr.upper s := Date d]> msg_data) items = Return r) \/
     (PyStr.upper s <> "UID" /\ PyStr.upper s <> "INTERNALDATE" /\
        fetch_fields host msg_id (<[PyStr.upper s := Raw value]> msg_data) items = Return r)).
Proof.
  simpl. destruct name as [|m|s|l]; try discriminate. simpl. intros H. exists s.
  split; [reflexivity|].
  destruct (String.eqb_spec (PyStr.upper s) "UID") as [EU|NU].
  - left. split; [exact EU|].
    destruct (_int_or_error value "invalid UID") as [u|] eqn:EI; simpl in H; [|discriminate].
    apply int_or_error_Return in EI. eauto.
  - destruct (String.eqb_spec (PyStr.upper s) "INTERNALDATE") as [EI|NI].
    + right; left. split; [exact EI|].
      destruct (_convert_INTERNALDATE host value) as [d|]; simpl in H; [|discriminate]. eauto.
    + right; right. auto.
Qed.

Lemma fetch_fields_single host msg_id msg_data x r :
  fetch_fields host msg_id msg_data [x] <> Return r.
Proof. simpl. destruct (py_upper x); discriminate. Qed.

(** The keys of the record: those it had, and the names of the fields. *)
Lemma fetch_fields_dom host items : forall msg_id msg_data msg_id' msg_data',
  fetch_fields host msg_id msg_data items = Return (msg_id', msg_data') ->
  dom msg_data' = dom msg_data ∪ list_to_set (field_names items).
Proof.
  induction items as [|x|name value items IH] using list_pair_ind;
    intros msg_id msg_data msg_id' msg_data' H.
  - injection H as <- <-. simpl. set_solver.
  - exfalso. eapply fetch_fields_single; eauto.
  - apply fetch_fields_cons_Return in H as (s & -> & [(E & u & _ & H)|[(E & d & _ & H)|(N1 & N2 & H)]]);
      apply IH in H; rewrite H; simpl.
    + rewrite E. reflexivity.
    + rewrite E. simpl. rewrite dom_insert_L. set_solver.
    + destruct (String.eqb_spec (PyStr.upper s) "UID"); [contradiction|].
      rewrite dom_insert_L. set_solver.
Qed.

Lemma field_names_no_UID items : ~ In "UID" (field_names items).
Proof.
  induction items as [|x|name value items IH] using list_pair_ind; simpl; auto.
  destruct name as [|m|s|l]; auto.
  destruct (String.eqb_spec (PyStr.upper s) "UID"); simpl; [auto|tauto].
Qed.

Lemma field_value_from_Some word items : forall v,
  exists v', field_value_from word (Some v) items = Some v'.
Proof.
  induction items as [|x|n v items IH] using list_pair_ind; intros v0; simpl; eauto.
  destruct n; auto. destruct (String.eqb _ _); auto.
Qed.

(** The message id after the fields: the [int] of the last UID field. *)
Lemma fetch_fields_key host items : forall msg_id msg_data msg_id' msg_data' found,
  fetch_fields host msg_id msg_data items = Return (msg_id', msg_data') ->
  match found with Some v => py_int v = Return msg_id | None => True end ->
  match field_value_from "UID" found items with
  | Some value => py_int value = Return msg_id'
  | None => msg_id' = msg_id
  end.
Proof.
  induction items as [|x|name value items IH] using list_pair_ind;
    intros msg_id msg_data msg_id' msg_data' found H F.
  - injection H as <- <-. simpl. destruct found; auto.
  - exfalso. eapply fetch_fields_single; eauto.
  - apply fetch_fields_cons_Return in H as (s & -> & [(E & u & Hu & H)|[(E & d & _ & H)|(N1 & N2 & H)]]);
      simpl.
    + rewrite E. simpl. pose proof (IH _ _ _ _ (Some value) H Hu) as K.
      destruct (field_value_from_Some "UID" items value) as [v' V]. rewrite V in *. exact K.
    + rewrite E. simpl. exact (IH _ _ _ _ found H F).
    + destruct (String.eqb_spec (PyStr.upper s) "UID"); [contradiction|].
      exact (IH _ _ _ _ found H F).
Qed.

(** A field that is neither UID nor INTERNALDATE is stored as it was
    read, the last of its name winning; a key that no field names is
    left as it was. *)
Lemma fetch_fields_lookup host word items :
  word <> "UID" -> word <> "INTERNALDATE" ->
  forall msg_id msg_data msg_id' msg_data' found,
  fetch_fields host msg_id msg_data items = Return (msg_id', msg_data') ->
  match found with Some v => msg_data !! word = Some (Raw v) | None => True end ->
  msg_data' !! word =
    match field_value_from word found items with
    | Some v => Some (Raw v)
    | None => msg_data !! word
    end.
Proof.
  intros W1 W2.
  induction items as [|x|name value items IH] using list_pair_ind;
    intros msg_id msg_data msg_id' msg_data' found H F.
  - injection H as <- <-. simpl. destruct found; auto.
  - exfalso. eapply fetch_fields_single; eauto.
  - apply fetch_fields_cons_Return in H as (s & -> & [(E & u & Hu & H)|[(E & d & _ & H)|(N1 & N2 & H)]]);
      simpl.
    + destruct (String.eqb_spec (PyStr.upper s) word); [congruence|]. eapply IH; eauto.
    + destruct (String.eqb_spec (PyStr.upper s) word); [congruence|].
      rewrite (IH _ _ _ _ found H).
      * rewrite lookup_insert_ne by assumption. reflexivity.
      * destruct found; [|exact I]. rewrite lookup_insert_ne by assumption. exact F.
    + destruct (String.eqb_spec (PyStr.upper s) word) as [EW|NW].
      * rewrite (IH _ _ _ _ (Some value) H).
        -- destruct (field_value_from_Some word items value) as [v' V].
           rewrite V. reflexivity.
        -- rewrite EW. apply lookup_insert_eq.
      * rewrite (IH _ _ _ _ found H).
        -- rewrite lookup_insert_ne by assumption. reflexivity.
        -- destruct found; [|exact I]. rewrite lookup_insert_ne by assumption. exact F.
Qed.

Lemma fetch_fields_untouched host items : forall msg_id msg_data msg_id' msg_data' word,
  fetch_fields host msg_id msg_data items = Return (msg_id', msg_data') ->
  ~ In word (field_names items) ->
  msg_data' !! word = msg_data !! word.
Proof.
  intros msg_id msg_data msg_id' msg_data' word H N.
  apply fetch_fields_dom in H as D.
  destruct (msg_data !! word) as [v|] eqn:E.
  - revert msg_id msg_data msg_id' msg_data' H N D E.
    induction items as [|x|name value items IH] using list_pair_ind;
      intros msg_id msg_data msg_id' msg_data' H N D E.
    + injection H as <- <-. exact E.
    + exfalso. eapply fetch_fields_single; eauto.
    + apply fetch_fields_cons_Return in H as (s & -> & [(EU & u & Hu & H)|[(EI & d & _ & H)|(N1 & N2 & H)]]);
        simpl in N.
      * rewrite EU in N. simpl in N. eapply IH; eauto using fetch_fields_dom.
      * rewrite EI in N. simpl in N. eapply IH; eauto using fetch_fields_dom.
        rewrite lookup_insert_ne; [exact E|]. rewrite EI. tauto.
      * destruct (String.eqb_spec (PyStr.upper s) "UID"); [contradiction|]. simpl in N.
        eapply IH; eauto using fetch_fields_dom.
        rewrite lookup_insert_ne; [exact E|]. tauto.
  - apply not_elem_of_dom. rewrite D. apply not_elem_of_dom in E.
    rewrite elem_of_union, elem_of_list_to_set, list_elem_of_In. tauto.
Qed.

(** One turn of the loop over the messages, read backwards. *)
Lemma fetch_loop_cons_Return host tbl first after fin table :
  fetch_loop host tbl (first :: after) fin = Return table ->
  exists items rest k rec,
    after = PyTuple items :: rest /\
    decoded host first items k rec /\
    fetch_loop host (<[k := rec]> tbl) rest fin = Return table.
Proof.
  simpl. destruct (_int_or_error first "invalid message ID") as [s|] eqn:EI; simpl; [|discriminate].
  apply int_or_error_Return in EI.
  destruct after as [|msg_response rest]; [destruct fin; discriminate|].
  destruct msg_response as [| | |items]; try discriminate.
  destruct (Nat.odd (length items)) eqn:O; [discriminate|].
  destruct (fetch_fields host s _ items) as [[k rec]|] eqn:F; simpl; [|discriminate].
  intros H. exists items, rest, k, rec. unfold decoded. eauto 10.
Qed.

Lemma fetch_loop_cons_decoded host tbl first items rest fin k rec :
  decoded host first items k rec ->
  fetch_loop host tbl (first :: PyTuple items :: rest) fin =
  fetch_loop host (<[k := rec]> tbl) rest fin.
Proof.
  intros (s & Hs & O & F). simpl.
  rewrite (proj2 (int_or_error_Return first "invalid message ID" s) Hs). simpl.
  rewrite O, F. reflexivity.
Qed.

(** The loop over the messages can be cut after any message it got
    through. *)
Lemma fetch_loop_app host pre : forall tbl tbl' rest fin,
  fetch_loop host tbl pre Stop = Return tbl' ->
  fetch_loop host tbl (pre ++ rest) fin = fetch_loop host tbl' rest fin.
Proof.
  induction pre as [|x|first msg_response pre IH] using list_pair_ind;
    intros tbl tbl' rest fin H.
  - injection H as <-. reflexivity.
  - apply fetch_loop_cons_Return in H as (items & r & k & rec & E & _). discriminate.
  - apply fetch_loop_cons_Return in H as (items & r & k & rec & E & D & H).
    injection E as -> <-.
    change ((first :: PyTuple items :: pre) ++ rest)%list
      with (first :: PyTuple items :: (pre ++ rest)%list).
    rewrite (fetch_loop_cons_decoded _ _ _ _ _ _ _ _ D). apply IH. exact H.
Qed.

Lemma fetch_loop_app_Return host pre : forall tbl rest fin table,
  Nat.even (length pre) = true ->
  fetch_loop host tbl (pre ++ rest) fin = Return table ->
  exists tbl', fetch_loop host tbl pre Stop = Return tbl' /\
               fetch_loop host tbl' rest fin = Return table.
Proof.
  induction pre as [|x|first msg_response pre IH] using list_pair_ind;
    intros tbl rest fin table E H.
  - exists tbl. split; [reflexivity|exact H].
  - discriminate.
  - change ((first :: msg_response :: pre) ++ rest)%list
      with (first :: msg_response :: (pre ++ rest)%list) in H.
    apply fetch_loop_cons_Return in H as (items & r & k & rec & E' & D & H).
    injection E' as -> <-.
    destruct (IH _ _ _ _ E H) as (tbl' & H1 & H2).
    exists tbl'. split; [|exact H2].
    rewrite (fetch_loop_cons_decoded _ _ _ _ _ _ _ _ D). exact H1.
Qed.

Lemma decoded_key host first items k rec :
  decoded host first items k rec -> message_key first items = Return k.
Proof.
  intros (s & Hs & _ & F). unfold message_key, field_value.
  pose proof (fetch_fields_key _ _ _ _ _ _ None F I) as K.
  destruct (field_value_from "UID" None items); congruence.
Qed.

(** A key that no message of the batch is stored under keeps its entry. *)
Lemma fetch_loop_untouched host vals : forall tbl fin table k,
  fetch_loop host tbl vals fin = Return table ->
  ~ In k (stored_keys vals) ->
  table !! k = tbl !! k.
Proof.
  induction vals as [|x|first msg_response vals IH] using list_pair_ind;
    intros tbl fin table k H N.
  - simpl in H. destruct fin; [|discriminate]. congruence.
  - apply fetch_loop_cons_Return in H as (items & r & k' & rec & E & _). discriminate.
  - apply fetch_loop_cons_Return in H as (items & r & k' & rec & E & D & H).
    injection E as -> <-. simpl in N. rewrite (decoded_key _ _ _ _ _ D) in N. simpl in N.
    rewrite (IH _ _ _ _ H) by tauto.
    apply lookup_insert_ne. tauto.
Qed.

(** Every entry of the table is one the table had, or the record of a
    message of the batch. *)
Lemma fetch_loop_entries host vals : forall tbl fin table k rec,
  fetch_loop host tbl vals fin = Return table ->
  table !! k = Some rec ->
  tbl !! k = Some rec \/
  exists first items, In (first, PyTuple items) (messages vals) /\
                      decoded host first items k rec.
Proof.
  induction vals as [|x|first msg_response vals IH] using list_pair_ind;
    intros tbl fin table k rec H L.
  - simpl in H. destruct fin; [|discriminate]. left. congruence.
  - apply fetch_loop_cons_Return in H as (items & r & k' & rec' & E & _). discriminate.
  - apply fetch_loop_cons_Return in H as (items & r & k' & rec' & E & D & H).
    injection E as -> <-.
    destruct (IH _ _ _ _ _ H L) as [L'|(f & it & Hin & D')].
    + destruct (decide (k' = k)) as [->|NE].
      * rewrite lookup_insert_eq in L'. injection L' as <-.
        right. exists first, items. split; [left; reflexivity|exact D].
      * rewrite lookup_insert_ne in L' by exact NE. left. exact L'.
    + right. exists f, it. split; [right; exact Hin|exact D'].
Qed.

(** A batch that is decoded has every one of its messages decoded. *)
Lemma fetch_loop_all_decoded host vals : forall tbl fin table,
  fetch_loop host tbl vals fin = Return table ->
  forall first msg_response, In (first, msg_response) (messages vals) ->
  exists items k rec, msg_response = PyTuple items /\ decoded host first items k rec.
Proof.
  induction vals as [|x|first0 msg0 vals IH] using list_pair_ind;
    intros tbl fin table H first msg_response Hin.
  - destruct Hin.
  - destruct Hin.
  - apply fetch_loop_cons_Return in H as (items & r & k & rec & E & D & H).
    injection E as -> <-. destruct Hin as [[= <- <-]|Hin]; [eauto|].
    eapply IH; eauto.
Qed.

(** A field list that is gone through has every UID value one that [int]
    takes. *)
Lemma fetch_fields_uid_values host items : forall msg_id msg_data r value,
  fetch_fields host msg_id msg_data items = Return r ->
  In value (field_values "UID" items) ->
  exists u, py_int value = Return u.
Proof.
  induction items as [|x|name v items IH] using list_pair_ind;
    intros msg_id msg_data r value H Hin.
  - destruct Hin.
  - destruct Hin.
  - apply fetch_fields_cons_Return in H as (s & -> & [(E & u & Hu & H)|[(E & d & _ & H)|(N1 & N2 & H)]]);
      simpl in Hin.
    + rewrite E in Hin. simpl in Hin. destruct Hin as [<-|Hin]; [eauto|]. eapply IH; eauto.
    + rewrite E in Hin. simpl in Hin. eapply IH; eauto.
    + destruct (String.eqb_spec (PyStr.upper s) "UID"); [contradiction|]. eapply IH; eauto.
Qed.

Lemma parse_fetch_response_src_eq host src vals fin :
  gen_parsed_response_src src = (vals, fin) ->
  parse_fetch_response_src host src = fetch_loop host ∅ vals fin.
Proof. unfold parse_fetch_response_src. intros ->. reflexivity. Qed.

(** C7.  When the decoder comes to a message whose field list has an odd
    number of elements (the messages before it are decoded, its number
    is one [int] takes), it raises the [ParseError] "uneven number of
    response items", whatever comes after in the batch.  And a batch in
    which some message has such a field list is never decoded to a
    table. *)
Theorem uneven_field_list_is_an_error host src :
  (forall pre first items rest fin tbl s,
     gen_parsed_response_src src = ((pre ++ first :: PyTuple items :: rest)%list, fin) ->
     fetch_loop host ∅ pre Stop = Return tbl ->
     py_int first = Return s ->
     Nat.odd (length items) = true ->
     parse_fetch_response_src host src = Raise (ParseError (UnevenItems (PyTuple items)))) /\
  (forall first items table,
     In (first, PyTuple items) (messages (fst (gen_parsed_response_src src))) ->
     Nat.odd (length items) = true ->
     parse_fetch_response_src host src <> Return table).
Proof.
  split.
  - intros pre first items rest fin tbl s G P Hi O.
    rewrite (parse_fetch_response_src_eq _ _ _ _ G).
    rewrite (fetch_loop_app _ _ _ _ _ _ P). simpl.
    rewrite (proj2 (int_or_error_Return first "invalid message ID" s) Hi). simpl.
    rewrite O. reflexivity.
  - intros first items table Hin O R. unfold parse_fetch_response_src in R. simpl in R.
    destruct (fetch_loop_all_decoded _ _ _ _ _ R _ _ Hin)
      as (items' & k & rec & [= <-] & (s & _ & O' & _)).
    congruence.
Qed.

(** The batch [1 (FOO 1 BAR)], alone and after the message [2 (A B)]. *)
Lemma uneven_field_list_witness :
  parse_fetch_response_src 0 (source_of ["1"; "("; "FOO"; "1"; "BAR"; ")"]) =
    Raise (ParseError (UnevenItems (PyTuple [PyStr "FOO"; PyInt 1; PyStr "BAR"]))) /\
  parse_fetch_response_src 0
    (source_of ["2"; "("; "A"; "B"; ")"; "1"; "("; "FOO"; "1"; "BAR"; ")"; "x"]) =
    Raise (ParseError (UnevenItems (PyTuple [PyStr "FOO"; PyInt 1; PyStr "BAR"]))) /\
  (forall table,
     parse_fetch_response_src 0 (source_of ["x"; "("; ")"; "1"; "("; "FOO"; "1"; "BAR"; ")"])
     <> Return table).
Proof.
  split; [|split].
  - apply (proj1 (uneven_field_list_is_an_error 0 _) [] (PyInt 1)
             [PyStr "FOO"; PyInt 1; PyStr "BAR"] [] Stop ∅ 1);
      reflexivity.
  - apply (proj1 (uneven_field_list_is_an_error 0 _)
             [PyInt 2; PyTuple [PyStr "A"; PyStr "B"]] (PyInt 1)
             [PyStr "FOO"; PyInt 1; PyStr "BAR"] [PyStr "x"] Stop
             {[ 2 := {[ "SEQ" := Raw (PyInt 2); "A" := Raw (PyStr "B") ]} ]} 1);
      reflexivity.
  - intros table.
    apply (proj2 (uneven_field_list_is_an_error 0 _) (PyInt 1)
             [PyStr "FOO"; PyInt 1; PyStr "BAR"] table).
    + right. left. reflexivity.
    + reflexivity.
Defined.

(** C8, as the code has it.  When the decoder comes to a message whose
    first value [int] does not take (the null value, a list, a text that
    is no integer), it raises the [ParseError] "invalid message ID"; a
    first value that [int] takes, a text such as ["12"] included, is read
    as the number [int] gives.  And a batch in which some message has a
    first value that [int] does not take is never decoded to a table. *)
Theorem invalid_message_id_is_an_error host src :
  (forall pre first rest fin tbl,
     gen_parsed_response_src src = ((pre ++ first :: rest)%list, fin) ->
     fetch_loop host ∅ pre Stop = Return tbl ->
     (forall e, py_int first = Raise e ->
        parse_fetch_response_src host src =
        Raise (ParseError (IntOrError "invalid message ID" first))) /\
     (forall n, py_int first = Return n ->
        parse_fetch_response_src host src = fetch_loop host tbl (PyInt n :: rest) fin) /\
     ((exists e, py_int first = Raise e) <->
        first = PyNone \/ (exists l, first = PyTuple l) \/
        (exists t, first = PyStr t /\ PyStr.int_of_str t = None))) /\
  (forall first msg_response e table,
     In (first, msg_response) (messages (fst (gen_parsed_response_src src))) ->
     py_int first = Raise e ->
     parse_fetch_response_src host src <> Return table).
Proof.
  split.
  - intros pre first rest fin tbl G P. rewrite (parse_fetch_response_src_eq _ _ _ _ G).
    rewrite (fetch_loop_app _ _ _ _ _ _ P). repeat split.
    + intros e E. simpl. rewrite (int_or_error_Raise _ _ _ E). reflexivity.
    + intros n E. simpl.
      rewrite (proj2 (int_or_error_Return first "invalid message ID" n) E). reflexivity.
    + intros [e E]. destruct first as [|m|t|l]; simpl in E; eauto; [discriminate|].
      right; right. exists t. split; [reflexivity|].
      destruct (PyStr.int_of_str t); [discriminate|reflexivity].
    + intros [->|[[l ->]|(t & -> & E)]]; simpl; eauto. rewrite E. eauto.
  - intros first msg_response e table Hin E R.
    unfold parse_fetch_response_src in R. simpl in R.
    destruct (fetch_loop_all_decoded _ _ _ _ _ R _ _ Hin)
      as (items & k & rec & _ & (s & Hs & _)).
    congruence.
Qed.

(** The batch [NIL (FLAGS ())], and the batch [1 () x ()]. *)
Lemma invalid_message_id_witness :
  parse_fetch_response_src 0 (source_of ["NIL"; "("; "FLAGS"; "("; ")"; ")"]) =
    Raise (ParseError (IntOrError "invalid message ID" PyNone)) /\
  parse_fetch_response_src 0 (source_of ["1"; "("; ")"; "x"; "("; ")"]) =
    Raise (ParseError (IntOrError "invalid message ID" (PyStr "x"))) /\
  (forall table,
     parse_fetch_response_src 0 (source_of ["1"; "("; ")"; "x"; "("; ")"]) <> Return table).
Proof.
  split; [|split].
  - refine (proj1 (proj1 (invalid_message_id_is_an_error 0 _) [] PyNone
             [PyTuple [PyStr "FLAGS"; PyTuple []]] Stop ∅ _ _) TypeError _);
      reflexivity.
  - refine (proj1 (proj1 (invalid_message_id_is_an_error 0 _)
             [PyInt 1; PyTuple []] (PyStr "x") [PyTuple []] Stop
             {[ 1 := {[ "SEQ" := Raw (PyInt 1) ]} ]} _ _)
             (ValueError (InvalidIntLiteral "x")) _);
      reflexivity.
  - intros table.
    apply (proj2 (invalid_message_id_is_an_error 0 _) (PyStr "x") (PyTuple [])
             (ValueError (InvalidIntLiteral "x")) table).
    + right. left. reflexivity.
    + reflexivity.
Defined.

(** The batch ["12" ()], whose first value is a text, is decoded. *)
Lemma text_message_id_is_accepted :
  let src := source_of [PyStr.quoted "12"; "("; ")"] in
  gen_parsed_response_src src = ([PyStr "12"; PyTuple []], Stop) /\
  parse_fetch_response_src 0 src = Return {[ 12 := {[ "SEQ" := Raw (PyInt 12) ]} ]} /\
  parse_fetch_response_src 0 src <>
    Raise (ParseError (IntOrError "invalid message ID" (PyStr "12"))).
Proof. repeat split; try reflexivity. discriminate. Qed.

(** C1, as the code has it.  In a batch that is decoded, take a message
    of number [s] whose last field named UID (in any case) has the value
    [value], with [int(value) = u], and that has no field named SEQ.  Its
    record is stored under [u]: unless a later message of the batch is
    stored under [u] too, the entry of the table at [u] is that record;
    it has [SEQ = s], no other keys than SEQ and the names of the fields
    that are not UID, and each field that is neither UID nor INTERNALDATE
    as it was read. *)
Theorem uid_replaces_the_key host src pre first items post fin table s value u :
  gen_parsed_response_src src = ((pre ++ first :: PyTuple items :: post)%list, fin) ->
  parse_fetch_response_src host src = Return table ->
  Nat.even (length pre) = true ->
  py_int first = Return s ->
  field_value "UID" items = Some value ->
  py_int value = Return u ->
  ~ In "SEQ" (field_names items) ->
  ~ In u (stored_keys post) ->
  exists rec,
    table !! u = Some rec /\
    rec !! "SEQ" = Some (Raw (PyInt s)) /\
    dom rec = {[ "SEQ" ]} ∪ list_to_set (field_names items) /\
    (forall word v, word <> "UID" -> word <> "INTERNALDATE" ->
       field_value word items = Some v -> rec !! word = Some (Raw v)).
Proof.
  intros G R E Hi V U NS NK. rewrite (parse_fetch_response_src_eq _ _ _ _ G) in R.
  apply fetch_loop_app_Return in R as (tbl & _ & R); [|exact E].
  apply fetch_loop_cons_Return in R as (items' & rest & k & rec & Eq & D & R).
  injection Eq as <- <-.
  pose proof (decoded_key _ _ _ _ _ D) as K. unfold message_key in K.
  rewrite V, U in K. injection K as <-.
  destruct D as (s' & Hi' & _ & F). rewrite Hi in Hi'. injection Hi' as <-.
  exists rec. split; [|split; [|split]].
  - rewrite (fetch_loop_untouched _ _ _ _ _ _ R NK). apply lookup_insert_eq.
  - rewrite (fetch_fields_untouched _ _ _ _ _ _ _ F NS). apply lookup_singleton_eq.
  - rewrite (fetch_fields_dom _ _ _ _ _ _ F), dom_singleton_L. reflexivity.
  - intros word v W1 W2 FV.
    rewrite (fetch_fields_lookup _ _ _ W1 W2 _ _ _ _ None F I).
    unfold field_value in FV. rewrite FV. reflexivity.
Qed.

(** The batch [7 (UID 42 FLAGS (x y))]. *)
Lemma uid_replaces_the_key_witness :
  let src := source_of ["7"; "("; "UID"; "42"; "FLAGS"; "("; "x"; "y"; ")"; ")"] in
  parse_fetch_response_src 0 src =
    Return {[ 42 := {[ "SEQ" := Raw (PyInt 7);
                       "FLAGS" := Raw (PyTuple [PyStr "x"; PyStr "y"]) ]} ]} /\
  exists rec,
    ({[ 42 := {[ "SEQ" := Raw (PyInt 7);
                 "FLAGS" := Raw (PyTuple [PyStr "x"; PyStr "y"]) ]} ]} : Table) !! 42
      = Some rec /\
    rec !! "SEQ" = Some (Raw (PyInt 7)) /\
    dom rec = {[ "SEQ" ]} ∪ list_to_set
      (field_names [PyStr "UID"; PyInt 42; PyStr "FLAGS"; PyTuple [PyStr "x"; PyStr "y"]]) /\
    (forall word v, word <> "UID" -> word <> "INTERNALDATE" ->
       field_value word [PyStr "UID"; PyInt 42; PyStr "FLAGS"; PyTuple [PyStr "x"; PyStr "y"]]
         = Some v -> rec !! word = Some (Raw v)).
Proof.
  split; [reflexivity|].
  apply (uid_replaces_the_key 0
           (source_of ["7"; "("; "UID"; "42"; "FLAGS"; "("; "x"; "y"; ")"; ")"])
           [] (PyInt 7)
           [PyStr "UID"; PyInt 42; PyStr "FLAGS"; PyTuple [PyStr "x"; PyStr "y"]]
           [] Stop _ 7 (PyInt 42) 42); try reflexivity.
  - simpl. intros [H|[]]. discriminate.
  - simpl. tauto.
Defined.

(** The batch [7 (UID 42 UID 43)] is stored under 43, with nothing
    under 42; the batch [7 (UID 42 SEQ 9)] has [SEQ = 9] in its record. *)
Lemma uid_key_counterexample :
  (let src := source_of ["7"; "("; "UID"; "42"; "UID"; "43"; ")"] in
   gen_parsed_response_src src =
     ([PyInt 7; PyTuple [PyStr "UID"; PyInt 42; PyStr "UID"; PyInt 43]], Stop) /\
   exists table, parse_fetch_response_src 0 src = Return table /\
     table !! 42 = None /\
     table !! 43 = Some {[ "SEQ" := Raw (PyInt 7) ]}) /\
  (let src := source_of ["7"; "("; "UID"; "42"; "SEQ"; "9"; ")"] in
   gen_parsed_response_src src =
     ([PyInt 7; PyTuple [PyStr "UID"; PyInt 42; PyStr "SEQ"; PyInt 9]], Stop) /\
   exists table, parse_fetch_response_src 0 src = Return table /\
     table !! 42 = Some {[ "SEQ" := Raw (PyInt 9) ]}).
Proof.
  split; (split; [reflexivity|]); eexists; (split; [reflexivity|]); try split; reflexivity.
Qed.

(** C10.  In the table of a batch that is decoded, every record is the
    record of a message of the batch, stored under the key of that
    message; its keys are SEQ and the upper-cased names of the fields of
    that message that are not named UID, so it has no key UID.  And when
    the decoder comes to a field named UID whose value [int] does not
    take, it raises the [ParseError] "invalid UID"; in a batch that is
    decoded every UID value is one that [int] takes. *)
Theorem record_keys_and_invalid_uid host :
  (forall src table k rec,
     parse_fetch_response_src host src = Return table ->
     table !! k = Some rec ->
     exists first items,
       In (first, PyTuple items) (messages (fst (gen_parsed_response_src src))) /\
       message_key first items = Return k /\
       dom rec = {[ "SEQ" ]} ∪ list_to_set (field_names items) /\
       rec !! "UID" = None) /\
  (forall src pre first before name value after rest fin tbl s msg_id msg_data e,
     gen_parsed_response_src src =
       ((pre ++ first :: PyTuple (before ++ name :: value :: after) :: rest)%list, fin) ->
     fetch_loop host ∅ pre Stop = Return tbl ->
     py_int first = Return s ->
     Nat.odd (length (before ++ name :: value :: after)) = false ->
     fetch_fields host s {[ "SEQ" := Raw (PyInt s) ]} before = Return (msg_id, msg_data) ->
     py_upper name = Return "UID" ->
     py_int value = Raise e ->
     parse_fetch_response_src host src =
     Raise (ParseError (IntOrError "invalid UID" value))) /\
  (forall src table first items value,
     parse_fetch_response_src host src = Return table ->
     In (first, PyTuple items) (messages (fst (gen_parsed_response_src src))) ->
     In value (field_values "UID" items) ->
     exists u, py_int value = Return u).
Proof.
  split; [|split].
  - intros src table k rec R L. unfold parse_fetch_response_src in R. simpl in R.
    destruct (fetch_loop_entries _ _ _ _ _ _ _ R L) as [L'|(first & items & Hin & D)];
      [rewrite lookup_empty in L'; discriminate|].
    exists first, items. split; [exact Hin|]. split; [eapply decoded_key; eauto|].
    destruct D as (s & _ & _ & F).
    pose proof (fetch_fields_dom _ _ _ _ _ _ F) as Hd. rewrite dom_singleton_L in Hd.
    split; [exact Hd|].
    apply not_elem_of_dom. rewrite Hd.
    rewrite elem_of_union, elem_of_singleton, elem_of_list_to_set, list_elem_of_In.
    intros [H|H]; [discriminate|]. eapply field_names_no_UID; eauto.
  - intros src pre first before name value after rest fin tbl s msg_id msg_data e
           G P I O F N V.
    rewrite (parse_fetch_response_src_eq _ _ _ _ G).
    rewrite (fetch_loop_app _ _ _ _ _ _ P). simpl.
    rewrite (proj2 (int_or_error_Return first "invalid message ID" s) I). simpl.
    rewrite O. rewrite (fetch_fields_app _ _ _ _ _ _ _ F). simpl.
    rewrite N. simpl. rewrite (int_or_error_Raise _ _ _ V). reflexivity.
  - intros src table first items value R Hin Hv.
    unfold parse_fetch_response_src in R. simpl in R.
    destruct (fetch_loop_all_decoded _ _ _ _ _ R _ _ Hin)
      as (items' & k & rec & [= <-] & (s & _ & _ & F)).
    eapply fetch_fields_uid_values; eauto.
Qed.

(** The batch [7 (UID 42 FLAGS (x y))] again, and [1 (FLAGS () UID x)]. *)
Lemma record_keys_and_invalid_uid_witness :
  (exists first items,
     In (first, PyTuple items)
        (messages (fst (gen_parsed_response_src
           (source_of ["7"; "("; "UID"; "42"; "FLAGS"; "("; "x"; "y"; ")"; ")"])))) /\
     message_key first items = Return 42 /\
     dom ({[ "SEQ" := Raw (PyInt 7);
             "FLAGS" := Raw (PyTuple [PyStr "x"; PyStr "y"]) ]} : Record_)
       = {[ "SEQ" ]} ∪ list_to_set (field_names items) /\
     ({[ "SEQ" := Raw (PyInt 7);
         "FLAGS" := Raw (PyTuple [PyStr "x"; PyStr "y"]) ]} : Record_) !! "UID" = None) /\
  parse_fetch_response_src 0 (source_of ["1"; "("; "FLAGS"; "("; ")"; "UID"; "x"; ")"]) =
    Raise (ParseError (IntOrError "invalid UID" (PyStr "x"))).
Proof.
  split.
  - apply (proj1 (record_keys_and_invalid_uid 0)
             (source_of ["7"; "("; "UID"; "42"; "FLAGS"; "("; "x"; "y"; ")"; ")"])
             {[ 42 := {[ "SEQ" := Raw (PyInt 7);
                         "FLAGS" := Raw (PyTuple [PyStr "x"; PyStr "y"]) ]} ]} 42);
      reflexivity.
  - apply (proj1 (proj2 (record_keys_and_invalid_uid 0))
             (source_of ["1"; "("; "FLAGS"; "("; ")"; "UID"; "x"; ")"])
             [] (PyInt 1) [PyStr "FLAGS"; PyTuple []] (PyStr "UID") (PyStr "x") [] [] Stop
             ∅ 1 1 {[ "SEQ" := Raw (PyInt 1); "FLAGS" := Raw (PyTuple []) ]}
             (ValueError (InvalidIntLiteral "x")));
      reflexivity.
Defined.

(** ** Dates *)

Section DatetimeFacts.

Import Datetime.
Local Open Scope Z_scope.

Lemma all_below_true p n :
  all_below p n = true -> forall k, 0 <= k < Z.of_nat n -> p k = true.
Proof.
  induction n as [|n IH]; simpl; intros H k Hk; [lia|].
  apply andb_true_iff in H as [H1 H2].
  destruct (Z.eq_dec k (Z.of_nat n)) as [->|Hne]; [exact H1|].
  apply IH; [exact H2|lia].
Qed.

Lemma month_day_ok_all leap n : 0 <= n < 365 -> month_day_ok leap n = true.
Proof.
  intros H. apply (all_below_true (month_day_ok leap) 365%nat); [|lia].
  destruct leap; vm_compute; reflexivity.
Qed.

(** [ord_to_ymd] gives a date, and [ymd_to_ord] takes it back to the
    day it came from. *)
Lemma ord_to_ymd_roundtrip o :
  1 <= o ->
  let '(y, m, d) := ord_to_ymd o in
  ymd_to_ord y m d = o /\ 1 <= m <= 12 /\ 1 <= d <= days_in_month y m.
Proof.
  intros Ho. unfold ord_to_ymd, DI400Y, DI100Y, DI4Y.
  set (n400 := (o - 1) / 146097).
  set (r400 := (o - 1) mod 146097).
  set (n100 := r400 / 36524).
  set (r100 := r400 mod 36524).
  set (n4 := r100 / 1461).
  set (r4 := r100 mod 1461).
  set (n1 := r4 / 365).
  set (n := r4 mod 365).
  assert (E400 : o - 1 = 146097 * n400 + r400 /\ 0 <= r400 < 146097)
    by (subst n400 r400; split; [apply Z.div_mod; lia|apply Z.mod_pos_bound; lia]).
  assert (E100 : r400 = 36524 * n100 + r100 /\ 0 <= r100 < 36524)
    by (subst n100 r100; split; [apply Z.div_mod; lia|apply Z.mod_pos_bound; lia]).
  assert (E4 : r100 = 1461 * n4 + r4 /\ 0 <= r4 < 1461)
    by (subst n4 r4; split; [apply Z.div_mod; lia|apply Z.mod_pos_bound; lia]).
  assert (E1 : r4 = 365 * n1 + n /\ 0 <= n < 365)
    by (subst n1 n; split; [apply Z.div_mod; lia|apply Z.mod_pos_bound; lia]).
  assert (Hn400 : 0 <= n400) by (subst n400; apply Z.div_pos; lia).
  clearbody n400 r400 n100 r100 n4 r4 n1 n.
  assert (Hn100 : 0 <= n100 <= 4) by lia.
  assert (Hn4 : 0 <= n4 <= 24) by lia.
  assert (Hn1 : 0 <= n1 <= 4) by lia.
  set (y := n400 * 400 + 1 + n100 * 100 + n4 * 4 + n1).
  destruct ((n1 =? 4) || (n100 =? 4)) eqn:Last.
  - (* the last day of a leap year *)
    assert (Hy : (y - 1) mod 4 = 0 /\
                 (((y - 1) mod 100 =? 0) = false \/ (y - 1) mod 400 = 0) /\
                 days_before_year (y - 1) + 366 = o).
    { apply orb_true_iff in Last as [L|L]; apply Z.eqb_eq in L.
      - assert (n4 <= 23) by lia. assert (n100 <= 3) by lia.
        subst y. unfold days_before_year.
        repeat split; Z.div_mod_to_equations; lia.
      - subst y. unfold days_before_year.
        repeat split; Z.div_mod_to_equations; lia. }
    destruct Hy as (H4 & H100 & Hd).
    assert (HL : is_leap (y - 1) = true).
    { unfold is_leap. rewrite H4. simpl. destruct H100 as [->| ->]; [reflexivity|].
      apply orb_true_r. }
    unfold ymd_to_ord, days_before_month, days_in_month. rewrite HL. simpl. lia.
  - apply orb_false_iff in Last as [L1 L100].
    apply Z.eqb_neq in L1. apply Z.eqb_neq in L100.
    assert (Hdby : days_before_year y + n + 1 = o).
    { subst y. unfold days_before_year. Z.div_mod_to_equations. lia. }
    assert (HL : is_leap y = (n1 =? 3) && (negb (n4 =? 24) || (n100 =? 3))).
    { unfold is_leap.
      destruct (Z.eqb_spec (y mod 4) 0), (Z.eqb_spec (y mod 100) 0),
        (Z.eqb_spec (y mod 400) 0), (Z.eqb_spec n1 3), (Z.eqb_spec n4 24),
        (Z.eqb_spec n100 3); simpl; try reflexivity; exfalso; subst y;
        Z.div_mod_to_equations; lia. }
    rewrite <- HL.
    pose proof (month_day_ok_all (is_leap y) n ltac:(lia)) as MD.
    unfold month_day_ok, month_day in MD. unfold days_in_month.
    cbv zeta.
    destruct (n <? days_before_month_tbl (Z.shiftr (n + 50) 5) +
                   (if (2 <? Z.shiftr (n + 50) 5) && is_leap y then 1 else 0));
      repeat (apply andb_true_iff in MD as [MD ?]);
      unfold ymd_to_ord, days_before_month; lia.
Qed.

(** A date of a day between the first and the last has its year in the
    years 1 to 9999. *)
Lemma ymd_year_range y m d :
  1 <= ymd_to_ord y m d <= MAXORDINAL -> 1 <= m <= 12 -> 1 <= d <= days_in_month y m ->
  MINYEAR <= y <= MAXYEAR.
Proof.
  unfold ymd_to_ord, days_before_month, days_in_month, days_before_year,
    MAXORDINAL, MINYEAR, MAXYEAR.
  intros Ho Hm Hd.
  assert (M : m = 1 \/ m = 2 \/ m = 3 \/ m = 4 \/ m = 5 \/ m = 6 \/ m = 7 \/ m = 8 \/
              m = 9 \/ m = 10 \/ m = 11 \/ m = 12) by lia.
  destruct (is_leap y);
    repeat (destruct M as [->|M]); try subst m; simpl in *;
    Z.div_mod_to_equations; lia.
Qed.

(** Moving a date by minutes moves its count of minutes by as many,
    as long as the result is a day of the years 1 to 9999; and the
    result is a date that [datetime] takes. *)
Lemma add_minutes_Return dt delta tz :
  in_range (minutes_of dt + delta) ->
  exists r, add_minutes dt delta tz = Return r /\
    minutes_of r = minutes_of dt + delta /\
    second r = second dt /\ microsecond r = microsecond dt /\ tzinfo r = tz /\
    (0 <= second dt <= 59 -> 0 <= microsecond dt <= 999999 ->
     valid_fields (year r) (month r) (day r) (hour r) (minute r) (second r)
       (microsecond r) = true).
Proof.
  unfold in_range, add_minutes, MAXORDINAL. intros H.
  set (total := minutes_of dt + delta) in *.
  assert (Ho : 1 <= total / 1440 <= 3652059) by (Z.div_mod_to_equations; lia).
  destruct (Z.ltb_spec (total / 1440) 1); [lia|].
  destruct (Z.ltb_spec 3652059 (total / 1440)); [lia|]. simpl.
  pose proof (ord_to_ymd_roundtrip (total / 1440) ltac:(lia)) as R.
  destruct (ord_to_ymd (total / 1440)) as [[y m] d].
  destruct R as (Ro & Rm & Rd).
  pose proof (ymd_year_range y m d) as Ry. rewrite Ro in Ry.
  specialize (Ry Ho Rm Rd). unfold MINYEAR, MAXYEAR in Ry.
  eexists. split; [reflexivity|]. unfold minutes_of. simpl.
  rewrite Ro. repeat split.
  - Z.div_mod_to_equations. lia.
  - intros Hs Hus. unfold valid_fields, MINYEAR, MAXYEAR.
    repeat (apply andb_true_iff; split); apply Z.leb_le;
      try lia; Z.div_mod_to_equations; lia.
Qed.

Lemma add_minutes_overflow dt delta tz :
  ~ in_range (minutes_of dt + delta) ->
  add_minutes dt delta tz = Raise OverflowError.
Proof.
  unfold in_range, add_minutes, MAXORDINAL. intros H.
  set (total := minutes_of dt + delta) in *.
  destruct (Z.ltb_spec (total / 1440) 1); [reflexivity|].
  destruct (Z.ltb_spec 3652059 (total / 1440)); [reflexivity|].
  exfalso. apply H. Z.div_mod_to_equations. lia.
Qed.

End DatetimeFacts.

Lemma int_group_Some s n : PyStr.int_of_str s = Some n -> int_group s = Return n.
Proof. unfold int_group. simpl. intros ->. reflexivity. Qed.

Lemma valid_fields_second y mo d h mi s us :
  Datetime.valid_fields y mo d h mi s us = true ->
  (0 <= s <= 59)%Z /\ (0 <= us <= 999999)%Z.
Proof.
  unfold Datetime.valid_fields. intros V.
  repeat (apply andb_true_iff in V as [V ?]).
  repeat match goal with H : (_ <=? _)%Z = true |- _ => apply Z.leb_le in H end.
  lia.
Qed.

(** What [_convert_INTERNALDATE] gives on a text that matches and denotes
    a date. *)
Lemma convert_INTERNALDATE_Return host text mo dt zone :
  Imaplib.InternalDate_match (internaldate_text text) = Some mo ->
  denoted mo = Some (dt, zone) ->
  valid_datetime dt = true ->
  (-1440 < zone < 1440)%Z ->
  (-1440 < host < 1440)%Z ->
  Datetime.in_range (Datetime.minutes_of dt - zone) ->
  Datetime.in_range (Datetime.minutes_of dt - zone + host) ->
  exists r,
    _convert_INTERNALDATE host (PyStr text) = Return r /\
    Datetime.tzinfo r = None /\
    valid_datetime r = true /\
    (Datetime.seconds_of r - 60 * host = Datetime.seconds_of dt - 60 * zone)%Z.
Proof.
  intros M D V Hz Hh R1 R2. unfold _convert_INTERNALDATE.
  change (PyRepr.percent_s (PyStr text)) with (Return text). cbn [bind].
  unfold internaldate_text in M. rewrite M.
  unfold denoted in D.
  destruct (PyStr.int_of_str (Imaplib.g_zoneh mo)) as [zoneh|] eqn:E1; [|discriminate].
  destruct (PyStr.int_of_str (Imaplib.g_zonem mo)) as [zonem|] eqn:E2; [|discriminate].
  destruct (PyStr.int_of_str (Imaplib.g_year mo)) as [year|] eqn:E3; [|discriminate].
  destruct (Imaplib.Mon2num (Imaplib.g_mon mo)) as [mon|] eqn:E4; [|discriminate].
  destruct (PyStr.int_of_str (Imaplib.g_day mo)) as [day|] eqn:E5; [|discriminate].
  destruct (PyStr.int_of_str (Imaplib.g_hour mo)) as [hour|] eqn:E6; [|discriminate].
  destruct (PyStr.int_of_str (Imaplib.g_min mo)) as [min|] eqn:E7; [|discriminate].
  destruct (PyStr.int_of_str (Imaplib.g_sec mo)) as [sec|] eqn:E8; [|discriminate].
  simpl in D. injection D as <- <-.
  rewrite (int_group_Some _ _ E1), (int_group_Some _ _ E2), (int_group_Some _ _ E3),
    (int_group_Some _ _ E5), (int_group_Some _ _ E6), (int_group_Some _ _ E7),
    (int_group_Some _ _ E8). simpl.
  unfold valid_datetime in V. simpl in V.
  unfold Datetime.new_datetime. rewrite V. simpl.
  destruct (valid_fields_second _ _ _ _ _ _ _ V) as [Vs Vus].
  set (zone := if String.eqb (Imaplib.g_zonen mo) "-" then (- (zoneh * 60 + zonem))%Z
               else (zoneh * 60 + zonem)%Z) in *.
  set (dt := Datetime.mkdt year mon day hour min sec 0 (FixedOffset zone)).
  unfold Datetime.astimezone. simpl Datetime.tzinfo. unfold FixedOffset at 1.
  unfold Datetime.utcoffset.
  destruct (Z.ltb_spec (-1440) zone); [|lia].
  destruct (Z.ltb_spec zone 1440); [|lia]. simpl.
  assert (Hm : Datetime.minutes_of dt =
               Datetime.minutes_of (Datetime.mkdt year mon day hour min sec 0 None))
    by reflexivity.
  destruct (add_minutes_Return dt (- zone) (Some host)) as (utc & -> & U1 & U2 & U3 & U4 & U5).
  { rewrite Hm. replace (Datetime.minutes_of _ + - zone)%Z
      with (Datetime.minutes_of (Datetime.mkdt year mon day hour min sec 0 None) - zone)%Z by lia.
    exact R1. }
  simpl.
  destruct (Z.ltb_spec (-1440) host); [|lia].
  destruct (Z.ltb_spec host 1440); [|lia]. simpl.
  destruct (add_minutes_Return utc host (Some host)) as (loc & -> & L1 & L2 & L3 & L4 & L5).
  { rewrite U1, Hm. replace (Datetime.minutes_of _ + - zone + host)%Z
      with (Datetime.minutes_of (Datetime.mkdt year mon day hour min sec 0 None) - zone + host)%Z
      by lia.
    exact R2. }
  simpl. eexists. split; [reflexivity|]. split; [reflexivity|]. split.
  - unfold valid_datetime. simpl. apply L5; rewrite ?U2, ?U3; simpl; lia.
  - unfold Datetime.seconds_of.
    change (Datetime.minutes_of (Datetime.replace_tzinfo_None loc))
      with (Datetime.minutes_of loc).
    simpl Datetime.second. rewrite L1, L2, U1, U2, Hm. simpl Datetime.second. lia.
Qed.



Example internaldate_utc_example :
  _convert_INTERNALDATE 600 (PyStr "16-Mar-2010 16:45:32 +0000") =
  Return (Datetime.mkdt 2010 3 17 2 45 32 0 None).
Proof. reflexivity. Qed.


(** A text that does not match the pattern makes [_convert_INTERNALDATE]
    raise [ValueError], which is no [ParseError]. *)
Lemma convert_INTERNALDATE_no_match host text :
  Imaplib.InternalDate_match (internaldate_text text) = None ->
  _convert_INTERNALDATE host (PyStr text) = Raise (ValueError (CouldntParseDate (PyStr text))).
Proof.
  intros M. unfold _convert_INTERNALDATE.
  change (PyRepr.percent_s (PyStr text)) with (Return text). cbn [bind].
  unfold internaldate_text in M. rewrite M. reflexivity.
Qed.

(** C9.  On the batch [1 (INTERNALDATE "garbage")] the decoder raises
    the [ValueError] "couldn't parse date", which is not a [ParseError];
    on [1 (INTERNALDATE "16-Xyz-2010 16:45:32 +0000")], whose month is no
    month, it raises [KeyError]. *)
Theorem malformed_date_is_not_a_ParseError :
  parse_fetch_response_src 0
    (source_of ["1"; "("; "INTERNALDATE"; PyStr.quoted "garbage"; ")"]) =
    Raise (ValueError (CouldntParseDate (PyStr "garbage"))) /\
  parse_fetch_response_src 0
    (source_of ["1"; "("; "INTERNALDATE"; PyStr.quoted "16-Xyz-2010 16:45:32 +0000"; ")"]) =
    Raise (KeyError "Xyz").
Proof. split; reflexivity. Qed.



Example unmatched_inner_example :
  parse_response_src (source_of ["("; "1"; "("; "2"; "3"]) =
  Raise (ParseError (TupleIncomplete [PyInt 2; PyInt 3])).
Proof. reflexivity. Qed.


(** ** Examples *)

Example isdigit_45 : PyStr.isdigit "45" = true.
Proof. reflexivity. Qed.

Example int_of_str_spaces : PyStr.int_of_str " 9" = Some 9%Z.
Proof. reflexivity. Qed.

Example int_of_str_bad : PyStr.int_of_str "12x" = None.
Proof. reflexivity. Qed.

Example repr_tuple :
  PyRepr.repr (PyTuple [PyInt 1; PyStr "a'b"; PyNone; PyTuple [PyStr "x"]]) =
  "(1, " ++ PyStr.quoted "a'b" ++ ", None, ('x',))".
Proof. reflexivity. Qed.

Example tokens_example :
  Lexer.tokens Lexer.Plain EmptyString ("1 (FLAGS (\Seen) X " ++ PyStr.quoted "a b" ++ ")") =
  ["1"; "("; "FLAGS"; "("; "\Seen"; ")"; "X"; PyStr.quoted "a b"; ")"].
Proof. reflexivity. Qed.

(** ** The lexer on parentheses, and nesting of any depth *)










(** ** The functions are total, and the entry points on text *)

Lemma atom_leaf_not_RuntimeError src token e :
  True -> atom_leaf src token = Raise e -> e <> RuntimeError.
Proof.
  intros _ H. unfold atom_leaf in H.
  repeat match type of H with
         | (if ?b then _ else _) = _ => destruct b
         | match ?o with _ => _ end = _ => destruct o
         end; try discriminate; injection H as <-; discriminate.
Qed.

(** No evaluation runs out of its budget: neither [atom] nor the
    generator ever ends on the [RuntimeError] that stands for it. *)
Lemma never_RuntimeError src token :
  atom src token <> Raise RuntimeError /\
  snd (gen_parsed_response_src src) <> Raised RuntimeError.
Proof.
  split.
  - intros H. apply atom_run_atom in H.
    refine (proj1 (atom_run_raise (fun _ => True) (fun e => e <> RuntimeError)
                     atom_leaf_not_RuntimeError _) _ _ _ H I _ _ eq_refl eq_refl).
    + intros out. discriminate.
    + apply List.Forall_forall. intros; exact I.
  - intros H.
    destruct (gen_run_raise (fun _ => True) (fun e => e <> RuntimeError)
                atom_leaf_not_RuntimeError (fun out => ltac:(discriminate))
                src _ (proj2 (gen_run_gen src _) eq_refl)
                ltac:(apply List.Forall_forall; intros; exact I) _ H)
      as (tok & e0 & E & Q).
    destruct e0; simpl in E; try discriminate. contradiction.
Qed.

(** On a text that is not empty the entry points are the functions on
    the token source that the lexer makes of it; the empty text gives the
    empty tuple and the empty table. *)
Lemma entry_points_on_text host text literals :
  (text <> EmptyString ->
     parse_response text literals =
       parse_response_src (Lexer.create_token_source text literals) /\
     parse_fetch_response host text literals =
       parse_fetch_response_src host (Lexer.create_token_source text literals)) /\
  parse_response EmptyString literals = Return [] /\
  parse_fetch_response host EmptyString literals = Return ∅.
Proof.
  split; [|split; reflexivity].
  intros H. destruct text; [contradiction|]. split; reflexivity.
Qed.

(** * More of the decoder *)

(** ** Where the loop over the messages stops *)

Lemma fetch_loop_Return_Stop host vals : forall tbl fin table,
  fetch_loop host tbl vals fin = Return table ->
  fin = Stop /\ Nat.even (length vals) = true.
Proof.
  induction vals as [|x|first msg_response vals IH] using list_pair_ind;
    intros tbl fin table H.
  - simpl in H. destruct fin; [split; reflexivity|discriminate].
  - apply fetch_loop_cons_Return in H as (items & r & k & rec & E & _). discriminate.
  - apply fetch_loop_cons_Return in H as (items & r & k & rec & E & D & H).
    injection E as -> <-. apply IH in H. exact H.
Qed.

Lemma fetch_loop_dom host vals : forall tbl fin table,
  fetch_loop host tbl vals fin = Return table ->
  dom table = dom tbl ∪ list_to_set (stored_keys vals).
Proof.
  induction vals as [|x|first msg_response vals IH] using list_pair_ind;
    intros tbl fin table H.
  - simpl in H. destruct fin; [|discriminate]. injection H as <-. simpl. set_solver.
  - apply fetch_loop_cons_Return in H as (items & r & k & rec & E & _). discriminate.
  - apply fetch_loop_cons_Return in H as (items & r & k & rec & E & D & H).
    injection E as -> <-. simpl. rewrite (decoded_key _ _ _ _ _ D).
    rewrite (IH _ _ _ H), dom_insert_L. simpl. set_solver.
Qed.

(** A table comes back only from a response that was parsed to its end,
    into values that go two by two, and its keys are the keys of the
    messages: for each message the [int] of its last UID field, or of its
    number when it has none. *)
Theorem fetch_table_keys host src table :
  parse_fetch_response_src host src = Return table ->
  parse_response_src src = Return (fst (gen_parsed_response_src src)) /\
  Nat.even (length (fst (gen_parsed_response_src src))) = true /\
  dom table = list_to_set (stored_keys (fst (gen_parsed_response_src src))).
Proof.
  unfold parse_fetch_response_src, parse_response_src. simpl.
  destruct (gen_parsed_response_src src) as [vals fin]. simpl. intros H.
  destruct (fetch_loop_Return_Stop _ _ _ _ _ H) as [-> E].
  split; [reflexivity|]. split; [exact E|].
  rewrite (fetch_loop_dom _ _ _ _ _ H), dom_empty_L. set_solver.
Qed.

(** The batch [7 (UID 42) 8 (FLAGS ())]. *)
Lemma fetch_table_keys_witness :
  let src := source_of ["7"; "("; "UID"; "42"; ")"; "8"; "("; "FLAGS"; "("; ")"; ")"] in
  parse_response_src src = Return (fst (gen_parsed_response_src src)) /\
  Nat.even (length (fst (gen_parsed_response_src src))) = true /\
  dom (<[ 42 := ({[ "SEQ" := Raw (PyInt 7) ]} : Record_) ]>
         {[ 8 := ({[ "SEQ" := Raw (PyInt 8); "FLAGS" := Raw (PyTuple []) ]} : Record_) ]}
       : Table)
    = list_to_set (stored_keys (fst (gen_parsed_response_src src))).
Proof.
  apply (fetch_table_keys 0
           (source_of ["7"; "("; "UID"; "42"; ")"; "8"; "("; "FLAGS"; "("; ")"; ")"])).
  reflexivity.
Defined.

(** When the response ends after a message number, with no field list
    for it, the decoder raises the [ParseError] "unexpected EOF"; when
    the value after a message number is no tuple, it raises the
    [ParseError] "bad response type".  In both cases the messages before
    are decoded and the number is one [int] takes. *)
Theorem fetch_missing_or_bad_field_list host src pre first tbl s :
  fetch_loop host ∅ pre Stop = Return tbl ->
  py_int first = Return s ->
  (gen_parsed_response_src src = ((pre ++ [first])%list, Stop) ->
     parse_fetch_response_src host src = Raise (ParseError UnexpectedEOF)) /\
  (forall msg_response rest fin,
     gen_parsed_response_src src = ((pre ++ first :: msg_response :: rest)%list, fin) ->
     (forall items, msg_response <> PyTuple items) ->
     parse_fetch_response_src host src = Raise (ParseError (BadResponseType msg_response))).
Proof.
  intros P Hi. split.
  - intros G. rewrite (parse_fetch_response_src_eq _ _ _ _ G).
    rewrite (fetch_loop_app _ _ _ _ _ _ P). simpl.
    rewrite (proj2 (int_or_error_Return first "invalid message ID" s) Hi). reflexivity.
  - intros msg_response rest fin G N. rewrite (parse_fetch_response_src_eq _ _ _ _ G).
    rewrite (fetch_loop_app _ _ _ _ _ _ P). simpl.
    rewrite (proj2 (int_or_error_Return first "invalid message ID" s) Hi). simpl.
    destruct msg_response as [| | |items]; try reflexivity. exfalso. eapply N. reflexivity.
Qed.

(** The batches [1 () 2] and [1 () 2 FLAGS]. *)
Lemma fetch_missing_or_bad_field_list_witness :
  parse_fetch_response_src 0 (source_of ["1"; "("; ")"; "2"]) =
    Raise (ParseError UnexpectedEOF) /\
  parse_fetch_response_src 0 (source_of ["1"; "("; ")"; "2"; "FLAGS"]) =
    Raise (ParseError (BadResponseType (PyStr "FLAGS"))).
Proof.
  split.
  - refine (proj1 (fetch_missing_or_bad_field_list 0 (source_of ["1"; "("; ")"; "2"])
                     [PyInt 1; PyTuple []] (PyInt 2)
                     {[ 1 := {[ "SEQ" := Raw (PyInt 1) ]} ]} 2 _ _) _);
      reflexivity.
  - refine (proj2 (fetch_missing_or_bad_field_list 0
                     (source_of ["1"; "("; ")"; "2"; "FLAGS"])
                     [PyInt 1; PyTuple []] (PyInt 2)
                     {[ 1 := {[ "SEQ" := Raw (PyInt 1) ]} ]} 2 _ _)
              (PyStr "FLAGS") [] Stop _ _); try reflexivity. discriminate.
Defined.

(** When the decoder comes to a field whose name is not a text (an
    [int], [None], a tuple), the call of [upper] on it raises
    [AttributeError], which is no [ParseError] and which nothing in the
    module catches. *)
Theorem fetch_field_name_not_text host src pre first before name value after rest fin
        tbl s msg_id msg_data :
  gen_parsed_response_src src =
    ((pre ++ first :: PyTuple (before ++ name :: value :: after) :: rest)%list, fin) ->
  fetch_loop host ∅ pre Stop = Return tbl ->
  py_int first = Return s ->
  Nat.odd (length (before ++ name :: value :: after)) = false ->
  fetch_fields host s {[ "SEQ" := Raw (PyInt s) ]} before = Return (msg_id, msg_data) ->
  (forall t, name <> PyStr t) ->
  parse_fetch_response_src host src = Raise AttributeError.
Proof.
  intros G P Hi O F N.
  rewrite (parse_fetch_response_src_eq _ _ _ _ G).
  rewrite (fetch_loop_app _ _ _ _ _ _ P). simpl.
  rewrite (proj2 (int_or_error_Return first "invalid message ID" s) Hi). simpl.
  rewrite O. rewrite (fetch_fields_app _ _ _ _ _ _ _ F). simpl.
  destruct name as [| |t|]; try reflexivity. exfalso. eapply N. reflexivity.
Qed.

(** The batch [1 (FLAGS () 123 x)]. *)
Lemma fetch_field_name_not_text_witness :
  parse_fetch_response_src 0 (source_of ["1"; "("; "FLAGS"; "("; ")"; "123"; "x"; ")"]) =
  Raise AttributeError.
Proof.
  apply (fetch_field_name_not_text 0
           (source_of ["1"; "("; "FLAGS"; "("; ")"; "123"; "x"; ")"])
           [] (PyInt 1) [PyStr "FLAGS"; PyTuple []] (PyInt 123) (PyStr "x") [] [] Stop
           ∅ 1 1 {[ "SEQ" := Raw (PyInt 1); "FLAGS" := Raw (PyTuple []) ]});
    try reflexivity. discriminate.
Defined.

(** ** The keys of a record are upper-case *)

Lemma upper_char_idempotent c : PyStr.upper_char (PyStr.upper_char c) = PyStr.upper_char c.
Proof. destruct c as [[] [] [] [] [] [] [] []]; reflexivity. Qed.

Lemma upper_idempotent s : PyStr.upper (PyStr.upper s) = PyStr.upper s.
Proof.
  induction s as [|c r IH]; simpl; [reflexivity|].
  rewrite upper_char_idempotent, IH. reflexivity.
Qed.

Lemma field_names_upper items word :
  In word (field_names items) -> PyStr.upper word = word.
Proof.
  induction items as [|x|name value items IH] using list_pair_ind; simpl; try tauto.
  destruct name as [| |t|]; auto.
  destruct (String.eqb (PyStr.upper t) "UID"); auto.
  intros [<-|H]; [apply upper_idempotent|auto].
Qed.

(** Every key of every record of the table is its own upper-case form:
    the names of the fields are stored upper-cased, whatever their case
    in the response, so that a lookup by an upper-case name finds the
    field. *)
Theorem record_keys_are_upper_case host src table k rec key :
  parse_fetch_response_src host src = Return table ->
  table !! k = Some rec ->
  key ∈ dom rec ->
  PyStr.upper key = key.
Proof.
  intros R L Hk. unfold parse_fetch_response_src in R. simpl in R.
  destruct (fetch_loop_entries _ _ _ _ _ _ _ R L) as [L'|(first & items & Hin & D)];
    [rewrite lookup_empty in L'; discriminate|].
  destruct D as (s & _ & _ & F).
  rewrite (fetch_fields_dom _ _ _ _ _ _ F), dom_singleton_L in Hk.
  apply elem_of_union in Hk as [Hk|Hk].
  - apply elem_of_singleton in Hk. subst key. reflexivity.
  - apply elem_of_list_to_set, list_elem_of_In in Hk. eapply field_names_upper; eauto.
Qed.

(** The batch [1 (flags (x) Body[text] y)]. *)
Lemma record_keys_are_upper_case_witness :
  PyStr.upper "BODY[TEXT]" = "BODY[TEXT]".
Proof.
  apply (record_keys_are_upper_case 0
           (source_of ["1"; "("; "flags"; "("; "x"; ")"; "Body[text]"; "y"; ")"])
           {[ 1 := {[ "SEQ" := Raw (PyInt 1);
                      "FLAGS" := Raw (PyTuple [PyStr "x"]);
                      "BODY[TEXT]" := Raw (PyStr "y") ]} ]}
           1
           {[ "SEQ" := Raw (PyInt 1);
              "FLAGS" := Raw (PyTuple [PyStr "x"]);
              "BODY[TEXT]" := Raw (PyStr "y") ]}
           "BODY[TEXT]").
  - reflexivity.
  - reflexivity.
  - vm_compute. reflexivity.
Defined.

(** * More of the parser *)

(** ** Tokens after the ones a run reads *)

Lemma next_token_extend src token src' extra :
  next_token src = Some (token, src') ->
  next_token (extend src extra) = Some (token, extend src' extra).
Proof.
  unfold next_token, extend. simpl.
  destruct (pending src) as [|[t l] rest]; [discriminate|].
  intros [= <- <-]. reflexivity.
Qed.

Lemma atom_leaf_extend src extra token :
  atom_leaf (extend src extra) token = atom_leaf src token.
Proof. rewrite (atom_leaf_current (extend src extra)), (atom_leaf_current src). reflexivity. Qed.

(** A run that returns reads the tokens it reads and no others: with
    more tokens after them it returns the same value, and leaves them. *)
Lemma atom_run_frame :
  (forall src token r, atom_run src token r ->
     forall v src', r = Return (v, src') ->
     forall extra, atom_run (extend src extra) token (Return (v, extend src' extra))) /\
  (forall src out r, list_run src out r ->
     forall v src', r = Return (v, src') ->
     forall extra, list_run (extend src extra) out (Return (v, extend src' extra))).
Proof.
  apply atom_list_run_ind.
  - intros src r _ IH v src' -> extra. apply run_open. eapply IH. reflexivity.
  - intros src token Hne v src' H extra.
    destruct (atom_leaf src token) as [w|e] eqn:L; simpl in H; [|discriminate].
    injection H as <- <-.
    pose proof (run_leaf (extend src extra) token Hne) as R.
    rewrite atom_leaf_extend, L in R. exact R.
  - intros; discriminate.
  - intros src out s1 N v src' [= <- <-] extra.
    apply run_close. apply next_token_extend. exact N.
  - intros; discriminate.
  - intros src out token s1 v s2 r N Hne _ IHa _ IHl w src' -> extra.
    eapply run_item.
    + apply next_token_extend. exact N.
    + exact Hne.
    + eapply IHa. reflexivity.
    + eapply IHl. reflexivity.
Qed.

Lemma gen_run_pending src g :
  gen_run src g -> forall src2, pending src2 = pending src -> gen_run src2 g.
Proof.
  intros H src2 E.
  assert (N : next_token src2 = next_token src) by (unfold next_token; rewrite E; reflexivity).
  destruct H as [src N0|src token s1 e N0 A|src token s1 v s2 vs t N0 A G].
  - apply gen_stop. congruence.
  - eapply gen_raise; [|exact A]. congruence.
  - eapply gen_yield; [|exact A|exact G]. congruence.
Qed.

Lemma gen_run_frame src g :
  gen_run src g -> snd g = Stop ->
  forall extra g2, gen_run (mkSource None extra) g2 ->
  gen_run (extend src extra) ((fst g ++ fst g2)%list, snd g2).
Proof.
  induction 1 as [src N|src token s1 e N A|src token s1 v s2 vs t N A G IH];
    simpl; intros Ht extra g2 G2; [|discriminate|].
  - destruct g2 as [vs2 t2]. simpl.
    apply (gen_run_pending _ _ G2). unfold extend. simpl.
    rewrite (next_token_None _ N). reflexivity.
  - eapply gen_yield.
    + apply next_token_extend. exact N.
    + eapply (proj1 atom_run_frame); [exact A|reflexivity].
    + apply (IH Ht extra g2 G2).
Qed.

(** Parsing the tokens of a response that parses, with the tokens of a
    second response after them, gives the values of the first and then
    what the second gives, its values or its exception. *)
Theorem parse_concatenation src1 src2 vs1 :
  parse_response_src src1 = Return vs1 ->
  parse_response_src (extend src1 (pending src2)) =
  (vs2 <- parse_response_src src2 ;; Return (vs1 ++ vs2)%list).
Proof.
  intros H1.
  destruct (parse_response_src_cases src1) as [G1 [[Hs E1]|[e [Hr E1]]]]; [|congruence].
  assert (fst (gen_parsed_response_src src1) = vs1) as Hvs by congruence.
  assert (G2 : gen_run (mkSource None (pending src2)) (gen_parsed_response_src src2)).
  { apply (gen_run_pending src2); [apply gen_run_gen; reflexivity|reflexivity]. }
  pose proof (gen_run_frame _ _ G1 Hs _ _ G2) as G. apply gen_run_gen in G.
  unfold parse_response_src at 1. rewrite G, Hvs.
  unfold parse_response_src. destruct (gen_parsed_response_src src2) as [vs2 [|e]]; reflexivity.
Qed.

(** The tokens [1 (a b)] before the tokens [NIL 2], and before the
    tokens [( 3]. *)
Lemma parse_concatenation_witness :
  parse_response_src (extend (source_of ["1"; "("; "a"; "b"; ")"])
                             (pending (source_of ["NIL"; "2"]))) =
    Return [PyInt 1; PyTuple [PyStr "a"; PyStr "b"]; PyNone; PyInt 2] /\
  parse_response_src (extend (source_of ["1"; "("; "a"; "b"; ")"])
                             (pending (source_of ["("; "3"]))) =
    Raise (ParseError (TupleIncomplete [PyInt 3])).
Proof.
  split.
  - apply (parse_concatenation (source_of ["1"; "("; "a"; "b"; ")"])
             (source_of ["NIL"; "2"]) [PyInt 1; PyTuple [PyStr "a"; PyStr "b"]]).
    reflexivity.
  - apply (parse_concatenation (source_of ["1"; "("; "a"; "b"; ")"])
             (source_of ["("; "3"]) [PyInt 1; PyTuple [PyStr "a"; PyStr "b"]]).
    reflexivity.
Defined.

Lemma push_token_next token src :
  next_token (push_token token src) = Some (token, src).
Proof. unfold push_token, next_token. simpl. destruct src; reflexivity. Qed.

(** A [")"] that closes nothing is no error: at the top level [atom]
    reads it as the text [")"], and the parsing goes on after it. *)
Theorem stray_close_is_a_text src :
  parse_response_src (push_token ")" src) =
  (vs <- parse_response_src src ;; Return (PyStr ")" :: vs)).
Proof.
  assert (G : gen_run (push_token ")" src)
                (PyStr ")" :: fst (gen_parsed_response_src src),
                 snd (gen_parsed_response_src src))).
  { eapply gen_yield.
    - apply push_token_next.
    - apply (run_leaf src ")"). discriminate.
    - rewrite <- surjective_pairing. apply gen_run_gen. reflexivity. }
  apply gen_run_gen in G. unfold parse_response_src. rewrite G.
  destruct (gen_parsed_response_src src) as [vs [|e]]; reflexivity.
Qed.

(** The loop of the ["("] branch over tokens that the generator reads to
    their end: it collects what the generator yields. *)
Lemma gen_run_list_close src g :
  gen_run src g -> snd g = Stop -> top_close 0 (tokens_of src) = false ->
  forall out lit extra,
    list_run (extend src ((")", lit) :: extra)) out
             (Return (PyTuple (out ++ fst g)%list, mkSource lit extra)).
Proof.
  unfold tokens_of.
  induction 1 as [src N|src token s1 e N A|src token s1 v s2 vs t N A G IH];
    simpl; intros Ht Hc out lit extra; [|discriminate|].
  - rewrite app_nil_r. apply run_close. unfold next_token, extend. simpl.
    rewrite (next_token_None _ N). reflexivity.
  - destruct (proj1 atom_run_consumed _ _ _ A _ _ eq_refl) as (c & Hp & _ & _ & Hd).
    rewrite (next_token_pending _ _ _ N), Hp in Hc.
    rewrite List.map_cons, List.map_app in Hc. simpl fst in Hc.
    assert (Hne : token <> ")").
    { intros ->. simpl in Hc. discriminate. }
    change (token :: List.map fst c ++ List.map fst (pending s2))%list
      with ((token :: List.map fst c) ++ List.map fst (pending s2))%list in Hc.
    rewrite top_close_app, (Hd Hne 0%nat) in Hc.
    apply orb_false_iff in Hc as [_ Hc].
    eapply run_item.
    + apply next_token_extend. exact N.
    + exact Hne.
    + eapply (proj1 atom_run_frame); [exact A|reflexivity].
    + replace (out ++ v :: vs)%list with ((out ++ [v]) ++ vs)%list
        by (rewrite <- app_assoc; reflexivity).
      apply (IH Ht Hc).
Qed.



(** ** Writing values and reading them back *)

Lemma PyVal_nested_ind (P : PyVal -> Prop) :
  P PyNone -> (forall n, P (PyInt n)) -> (forall s, P (PyStr s)) ->
  (forall items, Forall P items -> P (PyTuple items)) ->
  forall v, P v.
Proof.
  intros HN HI HS HT. fix IH 1. intros [| n | s | items].
  - exact HN.
  - apply HI.
  - apply HS.
  - apply HT. induction items as [|x items IHitems]; constructor; [apply IH|exact IHitems].
Qed.

Lemma digit_char k :
  (k < 10)%N ->
  PyStr.is_digit (ascii_of_N (48 + k)) = true /\
  PyStr.digit_val (ascii_of_N (48 + k)) = Z.of_N k.
Proof.
  intros H.
  assert (E : (k = 0 \/ k = 1 \/ k = 2 \/ k = 3 \/ k = 4 \/ k = 5 \/ k = 6 \/ k = 7 \/
               k = 8 \/ k = 9)%N) by lia.
  repeat (destruct E as [->|E]); try subst k; split; reflexivity.
Qed.

(** [String.append] is kept folded by [simpl]; this unfolds it on a
    string that shows its first character. *)
Ltac string_simpl :=
  repeat match goal with
         | |- context [String.append (String ?x ?a) ?b] =>
             change (String.append (String x a) b) with (String x (String.append a b))
         | |- context [String.append EmptyString ?b] =>
             change (String.append EmptyString b) with b
         end.

Lemma string_app_assoc (a b c : string) : (a ++ b) ++ c = a ++ (b ++ c).
Proof. induction a as [|x a IH]; string_simpl; [reflexivity|]. f_equal. exact IH. Qed.

Lemma all_chars_app p (a b : string) :
  PyStr.all_chars p (a ++ b) = PyStr.all_chars p a && PyStr.all_chars p b.
Proof.
  induction a as [|x a IH]; string_simpl; simpl; [reflexivity|]. rewrite IH. apply andb_assoc.
Qed.

Lemma digits_val_app (a b : string) : forall acc,
  PyStr.digits_val acc (a ++ b) = PyStr.digits_val (PyStr.digits_val acc a) b.
Proof. induction a as [|x a IH]; intros acc; string_simpl; simpl; [reflexivity|apply IH]. Qed.

(** The digits that [nat_digits] writes before [acc] spell [n]. *)
Lemma nat_digits_spec fuel : forall n acc,
  (n < 2 ^ N.of_nat fuel)%N -> fuel <> O ->
  exists d, PyStr.nat_digits fuel n acc = d ++ acc /\
    d <> EmptyString /\
    PyStr.all_chars PyStr.is_digit d = true /\
    exists p, (0 < p)%Z /\ forall a, PyStr.digits_val a d = (a * p + Z.of_N n)%Z.
Proof.
  induction fuel as [|fuel IH]; intros n acc Hn Hf; [contradiction|].
  simpl PyStr.nat_digits. destruct (N.ltb_spec n 10) as [Hlt|Hge].
  - rewrite (N.mod_small n 10) by exact Hlt.
    destruct (digit_char n Hlt) as [Hd Hv].
    exists (String (ascii_of_N (48 + n)) EmptyString). split; [reflexivity|].
    split; [discriminate|]. split; [simpl; rewrite Hd; reflexivity|].
    exists 10%Z. split; [lia|]. intros a. simpl. rewrite Hv. lia.
  - assert (Hm : (n mod 10 < 10)%N) by (apply N.mod_upper_bound; lia).
    destruct (digit_char (n mod 10) Hm) as [Hd Hv].
    assert (Hf' : fuel <> O).
    { intros ->. simpl in Hn. lia. }
    assert (Hn' : (n / 10 < 2 ^ N.of_nat fuel)%N).
    { rewrite Nat2N.inj_succ, N.pow_succ_r' in Hn.
      apply N.Div0.div_lt_upper_bound. lia. }
    destruct (IH (n / 10)%N (String (ascii_of_N (48 + n mod 10)) acc) Hn' Hf')
      as (d & E & Hne & Hall & p & Hp & Hval).
    exists (d ++ String (ascii_of_N (48 + n mod 10)) EmptyString). split.
    + rewrite E, string_app_assoc. reflexivity.
    + split; [destruct d; [contradiction|discriminate]|]. split.
      * rewrite all_chars_app, Hall. simpl. rewrite Hd. reflexivity.
      * exists (p * 10)%Z. split; [lia|]. intros a.
        rewrite digits_val_app, Hval. simpl. rewrite Hv.
        rewrite N2Z.inj_div, N2Z.inj_mod. simpl Z.of_N.
        pose proof (Z.div_mod (Z.of_N n) 10 ltac:(lia)). lia.
Qed.

(** The decimal digits of an integer that is not negative are digits,
    and spell it. *)
Lemma str_of_Z_digits n :
  (0 <= n)%Z ->
  PyStr.isdigit (PyStr.str_of_Z n) = true /\
  PyStr.digits_val 0 (PyStr.str_of_Z n) = n.
Proof.
  intros Hn. unfold PyStr.str_of_Z.
  destruct (Z.ltb_spec n 0); [lia|].
  destruct (nat_digits_spec (S (N.to_nat (N.log2 (Z.abs_N n)))) (Z.abs_N n) EmptyString)
    as (d & E & Hne & Hall & p & Hp & Hval).
  - rewrite Nat2N.inj_succ, N2Nat.id.
    destruct (N.eq_dec (Z.abs_N n) 0%N) as [->|Hpos]; [reflexivity|].
    apply N.log2_spec. lia.
  - discriminate.
  - rewrite E. replace (d ++ EmptyString) with d
      by (clear; induction d as [|x d IH]; string_simpl; [reflexivity|f_equal; exact IH]).
    split.
    + unfold PyStr.isdigit. destruct d; [contradiction|exact Hall].
    + rewrite Hval, N2Z.inj_abs_N. lia.
Qed.

Lemma isdigit_first t :
  PyStr.isdigit t = true ->
  exists c r, t = String c r /\ PyStr.is_digit c = true.
Proof.
  destruct t as [|c r]; [discriminate|]. unfold PyStr.isdigit. simpl.
  intros H. apply andb_true_iff in H as [H _]. eauto.
Qed.

(** A token of digits is read as the integer it spells. *)
Lemma atom_leaf_digits src t :
  PyStr.isdigit t = true ->
  t <> "(" /\ t <> ")" /\ atom_leaf src t = Return (PyInt (PyStr.digits_val 0 t)).
Proof.
  intros H. destruct (isdigit_first t H) as (c & r & -> & Hc).
  split; [intros [= -> _]; discriminate|]. split; [intros [= -> _]; discriminate|].
  unfold atom_leaf.
  destruct (String.eqb (String c r) "NIL") eqn:EN;
    [apply String.eqb_eq in EN; rewrite EN in H; discriminate|].
  cbn [PyStr.first].
  destruct (Ascii.eqb c "{") eqn:E1;
    [apply Ascii.eqb_eq in E1; subst c; discriminate|].
  destruct (Ascii.eqb c PyStr.dq) eqn:E2;
    [apply Ascii.eqb_eq in E2; subst c; discriminate|].
  rewrite andb_false_r. cbn [andb]. rewrite H. reflexivity.
Qed.

Lemma snoc_not_empty s c : s ++ String c EmptyString <> EmptyString.
Proof. destruct s; string_simpl; discriminate. Qed.

Lemma last_snoc s c : PyStr.last (s ++ String c EmptyString) = Some c.
Proof.
  induction s as [|x s IH]; string_simpl; simpl; [reflexivity|].
  pose proof (snoc_not_empty s c) as N.
  destruct (s ++ String c EmptyString) eqn:E; [contradiction|exact IH].
Qed.

Lemma drop_last_snoc s c : PyStr.drop_last (s ++ String c EmptyString) = s.
Proof.
  induction s as [|x s IH]; string_simpl; simpl; [reflexivity|].
  pose proof (snoc_not_empty s c) as N.
  destruct (s ++ String c EmptyString) eqn:E; [contradiction|].
  rewrite IH. reflexivity.
Qed.

(** A token between double quotes is read as the text between them,
    whatever the text: digits, [NIL] and parentheses included. *)
Lemma atom_leaf_quoted src s :
  PyStr.quoted s <> "(" /\ PyStr.quoted s <> ")" /\
  atom_leaf src (PyStr.quoted s) = Return (PyStr s).
Proof.
  split; [discriminate|]. split; [discriminate|].
  unfold atom_leaf, PyStr.quoted.
  destruct (String.eqb_spec (String PyStr.dq (s ++ String PyStr.dq EmptyString)) "NIL");
    [discriminate|].
  simpl PyStr.first.
  destruct (Ascii.eqb_spec PyStr.dq "{"); [discriminate|].
  assert (L : PyStr.last (String PyStr.dq (s ++ String PyStr.dq EmptyString)) = Some PyStr.dq).
  { pose proof (snoc_not_empty s PyStr.dq) as N. simpl.
    destruct (s ++ String PyStr.dq EmptyString) eqn:E; [contradiction|].
    rewrite <- E. apply last_snoc. }
  rewrite L.
  assert (Hlen : (2 <=? PyStr.len (String PyStr.dq (s ++ String PyStr.dq EmptyString)))%Z = true).
  { apply Z.leb_le. unfold PyStr.len. simpl String.length.
    pose proof (snoc_not_empty s PyStr.dq) as N.
    destruct (s ++ String PyStr.dq EmptyString) eqn:E; [contradiction|].
    simpl. lia. }
  rewrite Hlen. rewrite (bool_decide_eq_true_2 _ eq_refl). cbn [andb Ascii.eqb].
  change (Ascii.eqb PyStr.dq PyStr.dq) with true. cbn [andb].
  unfold PyStr.slice_1_m1. rewrite drop_last_snoc. reflexivity.
Qed.

Lemma source_of_app a b :
  source_of (a ++ b) = extend (source_of a) (pending (source_of b)).
Proof. unfold source_of, extend. simpl. rewrite List.map_app. reflexivity. Qed.

Lemma tokens_of_source_of toks : tokens_of (source_of toks) = toks.
Proof.
  unfold tokens_of, source_of. simpl. rewrite List.map_map. simpl. apply List.map_id.
Qed.

Lemma depth_after_leaf d t : t <> "(" -> t <> ")" -> depth_after d [t] = d.
Proof.
  intros H1 H2. simpl.
  destruct (String.eqb_spec t "("); [contradiction|].
  destruct (String.eqb_spec t ")"); [contradiction|reflexivity].
Qed.

Lemma top_close_leaf d t : t <> "(" -> t <> ")" -> top_close d [t] = false.
Proof.
  intros H1 H2. simpl.
  destruct (String.eqb_spec t "("); [contradiction|].
  destruct (String.eqb_spec t ")"); [contradiction|reflexivity].
Qed.

(** The tokens of a value open and close as many lists, and close none
    that they did not open. *)
Lemma unparse_balanced v :
  writable v = true ->
  forall d, depth_after d (unparse v) = d /\ top_close d (unparse v) = false.
Proof.
  induction v as [|n|s|items IH] using PyVal_nested_ind; intros W d.
  - split; reflexivity.
  - simpl in W. apply Z.leb_le in W.
    destruct (str_of_Z_digits n W) as [Hd _].
    destruct (atom_leaf_digits (mkSource None []) _ Hd) as (N1 & N2 & _).
    split; [apply depth_after_leaf|apply top_close_leaf]; assumption.
  - destruct (atom_leaf_quoted (mkSource None []) s) as (N1 & N2 & _).
    split; [apply depth_after_leaf|apply top_close_leaf]; assumption.
  - simpl in W.
    assert (B : forall d, depth_after d (List.concat (List.map unparse items)) = d /\
                          top_close d (List.concat (List.map unparse items)) = false).
    { clear d. induction IH as [|x items Hx _ IHitems]; intros d; [split; reflexivity|].
      simpl in W. apply andb_true_iff in W as [Wx Wi].
      simpl. rewrite depth_after_app, top_close_app.
      destruct (Hx Wx d) as [-> ->]. apply (IHitems Wi d). }
    change (unparse (PyTuple items))
      with ("(" :: List.concat (List.map unparse items) ++ [")"])%list.
    simpl depth_after. simpl top_close.
    rewrite depth_after_app, top_close_app.
    destruct (B (S d)) as [-> ->]. split; reflexivity.
Qed.

Lemma parse_response_src_extend src1 src2 vs1 :
  parse_response_src src1 = Return vs1 ->
  parse_response_src (extend src1 (pending src2)) =
  (vs2 <- parse_response_src src2 ;; Return (vs1 ++ vs2)%list).
Proof.
  intros H1.
  destruct (parse_response_src_cases src1) as [G1 [[Hs E1]|[e [Hr E1]]]]; [|congruence].
  assert (fst (gen_parsed_response_src src1) = vs1) as Hvs by congruence.
  assert (G2 : gen_run (mkSource None (pending src2)) (gen_parsed_response_src src2)).
  { apply (gen_run_pending src2); [apply gen_run_gen; reflexivity|reflexivity]. }
  pose proof (gen_run_frame _ _ G1 Hs _ _ G2) as G. apply gen_run_gen in G.
  unfold parse_response_src at 1. rewrite G, Hvs.
  unfold parse_response_src. destruct (gen_parsed_response_src src2) as [vs2 [|e]]; reflexivity.
Qed.

Lemma parse_response_src_enclose src vs lit :
  parse_response_src src = Return vs ->
  top_close 0 (tokens_of src) = false ->
  parse_response_src (push_token "(" (extend src [(")", lit)])) = Return [PyTuple vs].
Proof.
  intros E Hc.
  destruct (parse_response_src_cases src) as [G [[Hs E']|[e [Hr E']]]]; [|congruence].
  assert (fst (gen_parsed_response_src src) = vs) as Hvs by congruence.
  pose proof (gen_run_list_close _ _ G Hs Hc [] lit []) as L. simpl in L. rewrite Hvs in L.
  assert (G' : gen_run (push_token "(" (extend src [(")", lit)])) ([PyTuple vs], Stop)).
  { eapply gen_yield.
    - apply push_token_next.
    - apply run_open. exact L.
    - apply gen_stop. reflexivity. }
  apply gen_run_gen in G'. unfold parse_response_src. rewrite G'. reflexivity.
Qed.

Lemma parse_one_leaf t v :
  t <> "(" -> atom_leaf (mkSource None []) t = Return v ->
  parse_response_src (source_of [t]) = Return [v].
Proof.
  intros Hne L.
  assert (G : gen_run (source_of [t]) ([v], Stop)).
  { eapply gen_yield with (src' := mkSource None []).
    - reflexivity.
    - pose proof (run_leaf (mkSource None []) t Hne) as R. rewrite L in R. exact R.
    - apply gen_stop. reflexivity. }
  apply gen_run_gen in G. unfold parse_response_src. rewrite G. reflexivity.
Qed.

Lemma unparse_parse_one v :
  writable v = true -> parse_response_src (source_of (unparse v)) = Return [v].
Proof.
  induction v as [|n|s|items IH] using PyVal_nested_ind; intros W.
  - reflexivity.
  - simpl in W. apply Z.leb_le in W.
    destruct (str_of_Z_digits n W) as [Hd Hv].
    destruct (atom_leaf_digits (mkSource None []) _ Hd) as (N1 & _ & L).
    rewrite Hv in L. apply (parse_one_leaf _ _ N1 L).
  - destruct (atom_leaf_quoted (mkSource None []) s) as (N1 & _ & L).
    apply (parse_one_leaf _ _ N1 L).
  - simpl in W.
    assert (S : parse_response_src (source_of (List.concat (List.map unparse items)))
                = Return items /\
                top_close 0 (List.concat (List.map unparse items)) = false).
    { induction IH as [|x items Hx Hall IHitems]; [split; reflexivity|].
      simpl in W. apply andb_true_iff in W as [Wx Wi].
      destruct (IHitems Wi) as [P C]. split.
      - simpl. rewrite source_of_app.
        rewrite (parse_response_src_extend _ _ _ (Hx Wx)), P. reflexivity.
      - simpl. rewrite top_close_app.
        destruct (unparse_balanced x Wx 0%nat) as [-> ->]. exact C. }
    destruct S as [P C].
    change (unparse (PyTuple items))
      with ("(" :: List.concat (List.map unparse items) ++ [")"])%list.
    replace (source_of ("(" :: List.concat (List.map unparse items) ++ [")"]))
      with (push_token "(" (extend (source_of (List.concat (List.map unparse items)))
                                   [(")", None)])).
    + apply parse_response_src_enclose; [exact P|]. rewrite tokens_of_source_of. exact C.
    + unfold push_token, extend, source_of. simpl. rewrite List.map_app. reflexivity.
Qed.



(** ** Two responses in one *)

Lemma fetch_loop_union host vals : forall (tbl : Table) fin,
  fetch_loop host tbl vals fin =
  (t <- fetch_loop host ∅ vals fin ;; Return (t ∪ tbl)).
Proof.
  induction vals as [|x|first msg_response vals IH] using list_pair_ind; intros tbl fin.
  - simpl. destruct fin; [|reflexivity]. simpl. rewrite (left_id_L ∅ (∪)). reflexivity.
  - simpl. destruct (_int_or_error x "invalid message ID"); simpl; [|reflexivity].
    destruct fin; reflexivity.
  - simpl. destruct (_int_or_error first "invalid message ID") as [s|]; simpl; [|reflexivity].
    destruct msg_response as [| | |items]; try reflexivity.
    destruct (Nat.odd (length items)); [reflexivity|].
    destruct (fetch_fields host s _ items) as [[k rec]|]; simpl; [|reflexivity].
    rewrite (IH (<[k:=rec]> tbl)), (IH (<[k:=rec]> ∅)).
    destruct (fetch_loop host ∅ vals fin) as [t|]; simpl; [|reflexivity].
    f_equal. rewrite !insert_union_singleton_l, (right_id_L ∅ (∪)), (assoc_L (∪)).
    reflexivity.
Qed.

(** Decoding the tokens of a batch that is decoded, with the tokens of a
    second batch after them, gives what the second batch gives over what
    the first gave: its exception, or its table with the entries of the
    first for the keys it does not have.  On a key of both, the later
    message wins. *)
Theorem fetch_concatenation host src1 src2 t1 :
  parse_fetch_response_src host src1 = Return t1 ->
  parse_fetch_response_src host (extend src1 (pending src2)) =
  (t2 <- parse_fetch_response_src host src2 ;; Return (t2 ∪ t1)).
Proof.
  intros H1. unfold parse_fetch_response_src in H1. simpl in H1.
  destruct (fetch_loop_Return_Stop _ _ _ _ _ H1) as [Hs _].
  assert (G1 : gen_run src1 (gen_parsed_response_src src1)) by (apply gen_run_gen; reflexivity).
  assert (G2 : gen_run (mkSource None (pending src2)) (gen_parsed_response_src src2)).
  { apply (gen_run_pending src2); [apply gen_run_gen; reflexivity|reflexivity]. }
  pose proof (gen_run_frame _ _ G1 Hs _ _ G2) as G. apply gen_run_gen in G.
  rewrite Hs in H1.
  rewrite (parse_fetch_response_src_eq _ _ _ _ G).
  rewrite (fetch_loop_app _ _ _ _ _ _ H1), fetch_loop_union. reflexivity.
Qed.

(** The batch [1 (A x) 2 (B y)] before the batch [2 (C z)]. *)
Lemma fetch_concatenation_witness :
  parse_fetch_response_src 0
    (extend (source_of ["1"; "("; "A"; "x"; ")"; "2"; "("; "B"; "y"; ")"])
            (pending (source_of ["2"; "("; "C"; "z"; ")"]))) =
  Return ({[ 2 := ({[ "SEQ" := Raw (PyInt 2); "C" := Raw (PyStr "z") ]} : Record_) ]} ∪
          (<[ 1 := ({[ "SEQ" := Raw (PyInt 1); "A" := Raw (PyStr "x") ]} : Record_) ]>
             {[ 2 := ({[ "SEQ" := Raw (PyInt 2); "B" := Raw (PyStr "y") ]} : Record_) ]})).
Proof.
  apply (fetch_concatenation 0
           (source_of ["1"; "("; "A"; "x"; ")"; "2"; "("; "B"; "y"; ")"])
           (source_of ["2"; "("; "C"; "z"; ")"])).
  reflexivity.
Defined.

(** ** What [parse_response] lets escape *)




(** ** The groups of a match of [InternalDate] *)

Lemma class_Some p s c r :
  Imaplib.class p s = Some (c, r) ->
  exists ch, c = String ch EmptyString /\ p ch = true.
Proof.
  destruct s as [|ch s']; simpl; [discriminate|].
  destruct (p ch) eqn:E; [|discriminate]. intros [= <- <-]. eauto.
Qed.

Lemma classes_Some p n : forall s cs r,
  Imaplib.classes p n s = Some (cs, r) ->
  String.length cs = n /\ PyStr.all_chars p cs = true.
Proof.
  induction n as [|n IH]; intros s cs r H; simpl in H.
  - injection H as <- <-. split; reflexivity.
  - destruct (Imaplib.class p s) as [[c r1]|] eqn:E1; simpl in H; [|discriminate].
    destruct (Imaplib.classes p n r1) as [[cs' r2]|] eqn:E2; simpl in H; [|discriminate].
    injection H as <- <-.
    destruct (class_Some _ _ _ _ E1) as (ch & -> & Hp).
    destruct (IH _ _ _ E2) as [Hl Ha].
    change (String ch EmptyString ++ cs') with (String ch cs').
    simpl. rewrite Hl, Hp, Ha. split; reflexivity.
Qed.

(** [int] takes a group of one digit or more. *)
Lemma int_of_digits_group n s cs r :
  Imaplib.classes PyStr.is_digit (S n) s = Some (cs, r) ->
  exists v, PyStr.int_of_str cs = Some v.
Proof.
  intros H. destruct (classes_Some _ _ _ _ _ H) as [Hl Ha].
  destruct cs as [|c cs']; [discriminate|].
  eexists. apply int_of_str_digits. exact Ha.
Qed.

(** [int] takes the group of the day, whose first character may be a
    space. *)
Lemma int_of_day_group s d1 r1 d2 r2 :
  Imaplib.class Imaplib.day_first s = Some (d1, r1) ->
  Imaplib.class PyStr.is_digit r1 = Some (d2, r2) ->
  exists v, PyStr.int_of_str (d1 ++ d2) = Some v.
Proof.
  intros H1 H2.
  destruct (class_Some _ _ _ _ H1) as (c1 & -> & P1).
  destruct (class_Some _ _ _ _ H2) as (c2 & -> & P2).
  change (String c1 EmptyString ++ String c2 EmptyString)
    with (String c1 (String c2 EmptyString)).
  unfold Imaplib.day_first in P1.
  repeat (apply orb_true_iff in P1 as [P1|P1]); apply Ascii.eqb_eq in P1; subst c1.
  - exists (PyStr.digits_val 0 (String c2 EmptyString)).
    rewrite <- (int_of_str_digits (String c2 EmptyString)).
    + reflexivity.
    + simpl. rewrite P2. reflexivity.
  - eexists. apply int_of_str_digits. simpl. rewrite P2. reflexivity.
  - eexists. apply int_of_str_digits. simpl. rewrite P2. reflexivity.
  - eexists. apply int_of_str_digits. simpl. rewrite P2. reflexivity.
  - eexists. apply int_of_str_digits. simpl. rewrite P2. reflexivity.
Qed.

(** In the groups of a match, [int] takes every group of digits. *)
Lemma match_here_groups s mo :
  Imaplib.match_here s = Some mo ->
  (exists v, PyStr.int_of_str (Imaplib.g_zoneh mo) = Some v) /\
  (exists v, PyStr.int_of_str (Imaplib.g_zonem mo) = Some v) /\
  (exists v, PyStr.int_of_str (Imaplib.g_year mo) = Some v) /\
  (exists v, PyStr.int_of_str (Imaplib.g_day mo) = Some v) /\
  (exists v, PyStr.int_of_str (Imaplib.g_hour mo) = Some v) /\
  (exists v, PyStr.int_of_str (Imaplib.g_min mo) = Some v) /\
  (exists v, PyStr.int_of_str (Imaplib.g_sec mo) = Some v).
Proof.
  unfold Imaplib.match_here. intros H.
  repeat match type of H with
         | mbind _ ?x = Some _ =>
             let E := fresh "E" in
             destruct x as [?|] eqn:E; [|discriminate H]; cbn [mbind option_bind] in H
         | (let '(_, _) := ?p in _) = Some _ => destruct p
         | match ?p with (_, _) => _ end = Some _ => destruct p
         end.
  injection H as <-. simpl.
  repeat split; eauto using int_of_digits_group, int_of_day_group.
Qed.

Lemma InternalDate_match_here s : forall mo,
  Imaplib.InternalDate_match s = Some mo -> exists t, Imaplib.match_here t = Some mo.
Proof.
  induction s as [|c r IH]; intros mo H; simpl in H; [eauto|].
  destruct (Ascii.eqb c PyStr.nl).
  - eauto.
  - destruct (Imaplib.InternalDate_match r) as [g|] eqn:E.
    + injection H as <-. eauto.
    + eauto.
Qed.

(** What [_convert_INTERNALDATE] does on the groups of a match: the
    groups of digits are integers, so that the month is the first thing
    that can fail. *)
Lemma convert_INTERNALDATE_match host v text mo :
  PyRepr.percent_s v = Return text ->
  Imaplib.InternalDate_match (internaldate_text text) = Some mo ->
  (Imaplib.Mon2num (Imaplib.g_mon mo) = None /\
   _convert_INTERNALDATE host v = Raise (KeyError (Imaplib.g_mon mo))) \/
  (exists dt zone,
     denoted mo = Some (dt, zone) /\
     _convert_INTERNALDATE host v = localised host dt zone).
Proof.
  intros P M. unfold _convert_INTERNALDATE. rewrite P. cbn [bind].
  unfold internaldate_text in M. rewrite M.
  destruct (InternalDate_match_here _ _ M) as [t Ht].
  destruct (match_here_groups _ _ Ht)
    as ([zh E1] & [zm E2] & [yr E3] & [dd E4] & [hh E5] & [mi E6] & [ss E7]).
  unfold denoted. rewrite E1, E2, E3, E4, E5, E6, E7.
  rewrite (int_group_Some _ _ E1), (int_group_Some _ _ E2), (int_group_Some _ _ E3),
    (int_group_Some _ _ E4), (int_group_Some _ _ E5), (int_group_Some _ _ E6),
    (int_group_Some _ _ E7).
  cbn [bind mbind option_bind].
  destruct (Imaplib.Mon2num (Imaplib.g_mon mo)) as [mon|] eqn:E8.
  - right. cbn [bind mbind option_bind]. eexists _, _. split; reflexivity.
  - left. split; reflexivity.
Qed.

Lemma add_minutes_cases dt delta tz :
  Datetime.add_minutes dt delta tz = Raise OverflowError \/
  exists r, Datetime.add_minutes dt delta tz = Return r /\
    Datetime.microsecond r = Datetime.microsecond dt /\ Datetime.tzinfo r = tz.
Proof.
  unfold Datetime.add_minutes. cbv zeta.
  destruct (_ || _); [left; reflexivity|].
  destruct (Datetime.ord_to_ymd _) as [[y m] d].
  right. eexists. split; [reflexivity|]. split; reflexivity.
Qed.

Lemma utcoffset_cases m :
  Datetime.utcoffset m = Raise (ValueError UtcOffsetRange) \/ Datetime.utcoffset m = Return m.
Proof. unfold Datetime.utcoffset. destruct (_ && _); [right|left]; reflexivity. Qed.

Lemma localised_cases host dt zone :
  (exists r, localised host dt zone = Return r /\
             Datetime.tzinfo r = None /\ Datetime.microsecond r = 0) \/
  (exists m, localised host dt zone = Raise (ValueError m)) \/
  localised host dt zone = Raise OverflowError.
Proof.
  unfold localised, Datetime.new_datetime.
  destruct (Datetime.valid_fields _ _ _ _ _ _ _); [|right; left; eexists; reflexivity].
  cbn [bind]. unfold Datetime.astimezone. cbn [Datetime.tzinfo].
  destruct (utcoffset_cases zone) as [-> | ->]; [right; left; eexists; reflexivity|].
  cbn [bind].
  match goal with |- context [Datetime.add_minutes ?d ?n ?z] =>
    destruct (add_minutes_cases d n z) as [-> |(utc & -> & U1 & U2)] end;
    [right; right; reflexivity|].
  cbn [bind].
  destruct (utcoffset_cases host) as [-> | ->]; [right; left; eexists; reflexivity|].
  cbn [bind].
  destruct (add_minutes_cases utc host (Some host)) as [-> |(loc & -> & L1 & L2)];
    [right; right; reflexivity|].
  cbn [bind]. left. eexists. split; [reflexivity|]. split; [reflexivity|].
  simpl. rewrite L1, U1. reflexivity.
Qed.

Lemma percent_s_TypeError v e :
  PyRepr.percent_s v = Raise e ->
  e = TypeError /\ exists items, v = PyTuple items /\ length items <> 1%nat.
Proof.
  intros P. destruct v as [| | |items]; try discriminate.
  destruct items as [|x [|y rest]]; try discriminate;
    injection P as <-; (split; [reflexivity|]); eexists; (split; [reflexivity|]);
    simpl; lia.
Qed.

(** A [datetime] that [_convert_INTERNALDATE] returns has no zone and no
    microseconds. *)
Lemma convert_INTERNALDATE_naive host v r :
  _convert_INTERNALDATE host v = Return r ->
  Datetime.tzinfo r = None /\ Datetime.microsecond r = 0.
Proof.
  intros H.
  destruct (PyRepr.percent_s v) as [text|e] eqn:P;
    [|unfold _convert_INTERNALDATE in H; rewrite P in H; discriminate].
  destruct (Imaplib.InternalDate_match (internaldate_text text)) as [mo|] eqn:M.
  - destruct (convert_INTERNALDATE_match host v text mo P M)
      as [[K E]|(dt & zone & _ & E)]; rewrite E in H; [discriminate|].
    destruct (localised_cases host dt zone) as [(r' & E' & T & U)|[[m E']| E']];
      rewrite E' in H; try discriminate.
    injection H as <-. split; assumption.
  - unfold _convert_INTERNALDATE in H. rewrite P in H. cbn [bind] in H.
    unfold internaldate_text in M. rewrite M in H. discriminate.
Qed.

(** Whatever it is given, [_convert_INTERNALDATE] returns a [datetime]
    without zone and without microseconds, or raises: [ValueError] (no
    match, a field that [datetime] refuses, a zone of a day or more),
    [KeyError] on a month that is no month, [OverflowError] when the
    instant leaves the years 1 to 9999, [TypeError] on a tuple that is
    no argument list of one.  It raises no [ParseError]. *)
Theorem internaldate_outcomes host v :
  (exists r, _convert_INTERNALDATE host v = Return r /\
             Datetime.tzinfo r = None /\ Datetime.microsecond r = 0) \/
  (exists m, _convert_INTERNALDATE host v = Raise (ValueError m)) \/
  (exists k, _convert_INTERNALDATE host v = Raise (KeyError k) /\ Imaplib.Mon2num k = None) \/
  _convert_INTERNALDATE host v = Raise OverflowError \/
  (_convert_INTERNALDATE host v = Raise TypeError /\
   exists items, v = PyTuple items /\ length items <> 1%nat).
Proof.
  destruct (PyRepr.percent_s v) as [text|e] eqn:P.
  - destruct (Imaplib.InternalDate_match (internaldate_text text)) as [mo|] eqn:M.
    + destruct (convert_INTERNALDATE_match host v text mo P M)
        as [[K ->]|(dt & zone & _ & ->)]; [right; right; left; eauto|].
      destruct (localised_cases host dt zone) as [R|[V|O]]; tauto.
    + right. left. exists (CouldntParseDate v).
      unfold _convert_INTERNALDATE. rewrite P. cbn [bind].
      unfold internaldate_text in M. rewrite M. reflexivity.
  - right. right. right. right.
    destruct (percent_s_TypeError _ _ P) as [-> Hv].
    unfold _convert_INTERNALDATE. rewrite P. split; [reflexivity|exact Hv].
Qed.

(** A month that is no month raises [KeyError] with the name as it
    stands in the text, whatever the rest of the text says: the groups
    before it are digits, which [int] takes. *)
Theorem unknown_month_is_a_KeyError host text mo :
  Imaplib.InternalDate_match (internaldate_text text) = Some mo ->
  Imaplib.Mon2num (Imaplib.g_mon mo) = None ->
  _convert_INTERNALDATE host (PyStr text) = Raise (KeyError (Imaplib.g_mon mo)).
Proof.
  intros M K.
  destruct (convert_INTERNALDATE_match host (PyStr text) text mo eq_refl M)
    as [[_ H]|(dt & zone & D & _)]; [exact H|].
  exfalso. unfold denoted in D.
  destruct (PyStr.int_of_str (Imaplib.g_zoneh mo)); [|discriminate].
  destruct (PyStr.int_of_str (Imaplib.g_zonem mo)); [|discriminate].
  destruct (PyStr.int_of_str (Imaplib.g_year mo)); [|discriminate].
  cbn [mbind option_bind] in D. rewrite K in D. discriminate.
Qed.

(** The text [39-Jam-0000 99:99:99 +9999], beside the same text with
    the month [Jan]. *)
Lemma unknown_month_is_a_KeyError_witness :
  _convert_INTERNALDATE 0 (PyStr "39-Jan-0000 99:99:99 +9999") = Raise (ValueError DateFieldRange) /\
  _convert_INTERNALDATE 0 (PyStr "39-Jam-0000 99:99:99 +9999") = Raise (KeyError "Jam").
Proof.
  split; [reflexivity|].
  apply (unknown_month_is_a_KeyError 0 "39-Jam-0000 99:99:99 +9999"
           (Imaplib.mkGroups "39" "Jam" "0000" "99" "99" "99" "+" "99" "99"));
    reflexivity.
Defined.

(** ** One instant, one [datetime] *)

Section Instants.

Import Datetime.
Local Open Scope Z_scope.

Lemma days_before_year_succ y :
  days_before_year (y + 1) = days_before_year y + (if is_leap y then 366 else 365).
Proof.
  unfold days_before_year, is_leap.
  replace (y + 1 - 1) with y by lia.
  destruct (Z.eqb_spec (y mod 4) 0), (Z.eqb_spec (y mod 100) 0),
    (Z.eqb_spec (y mod 400) 0); simpl; Z.div_mod_to_equations; lia.
Qed.

Lemma days_before_year_mono a b :
  1 <= a <= b -> days_before_year a <= days_before_year b.
Proof. unfold days_before_year. intros H. Z.div_mod_to_equations. lia. Qed.

Lemma day_of_year_range y m d :
  1 <= m <= 12 -> 1 <= d <= days_in_month y m ->
  1 <= days_before_month y m + d <= (if is_leap y then 366 else 365).
Proof.
  unfold days_before_month, days_in_month. intros Hm Hd.
  assert (M : m = 1 \/ m = 2 \/ m = 3 \/ m = 4 \/ m = 5 \/ m = 6 \/ m = 7 \/ m = 8 \/
              m = 9 \/ m = 10 \/ m = 11 \/ m = 12) by lia.
  destruct (is_leap y);
    repeat (destruct M as [->|M]); try subst m; simpl in *; lia.
Qed.

Lemma day_of_year_inj y m d m' d' :
  1 <= m <= 12 -> 1 <= d <= days_in_month y m ->
  1 <= m' <= 12 -> 1 <= d' <= days_in_month y m' ->
  days_before_month y m + d = days_before_month y m' + d' ->
  m = m' /\ d = d'.
Proof.
  unfold days_before_month, days_in_month. intros Hm Hd Hm' Hd' E.
  assert (M : m = 1 \/ m = 2 \/ m = 3 \/ m = 4 \/ m = 5 \/ m = 6 \/ m = 7 \/ m = 8 \/
              m = 9 \/ m = 10 \/ m = 11 \/ m = 12) by lia.
  assert (M' : m' = 1 \/ m' = 2 \/ m' = 3 \/ m' = 4 \/ m' = 5 \/ m' = 6 \/ m' = 7 \/
               m' = 8 \/ m' = 9 \/ m' = 10 \/ m' = 11 \/ m' = 12) by lia.
  destruct (is_leap y);
    repeat (destruct M as [->|M]); try subst m;
    repeat (destruct M' as [->|M']); try subst m'; simpl in *; lia.
Qed.

Lemma ymd_to_ord_lt y m d y' m' d' :
  1 <= y < y' ->
  1 <= m <= 12 -> 1 <= d <= days_in_month y m ->
  1 <= m' <= 12 -> 1 <= d' <= days_in_month y' m' ->
  ymd_to_ord y m d < ymd_to_ord y' m' d'.
Proof.
  intros Hy Hm Hd Hm' Hd'. unfold ymd_to_ord.
  pose proof (day_of_year_range y m d Hm Hd).
  pose proof (day_of_year_range y' m' d' Hm' Hd').
  pose proof (days_before_year_succ y).
  pose proof (days_before_year_mono (y + 1) y' ltac:(lia)).
  destruct (is_leap y); lia.
Qed.

(** Two dates of the same day are the same date. *)
Lemma ymd_to_ord_inj y m d y' m' d' :
  1 <= y -> 1 <= y' ->
  1 <= m <= 12 -> 1 <= d <= days_in_month y m ->
  1 <= m' <= 12 -> 1 <= d' <= days_in_month y' m' ->
  ymd_to_ord y m d = ymd_to_ord y' m' d' ->
  y = y' /\ m = m' /\ d = d'.
Proof.
  intros Hy Hy' Hm Hd Hm' Hd' E.
  destruct (Z.lt_trichotomy y y') as [L|[->|L]].
  - pose proof (ymd_to_ord_lt y m d y' m' d' ltac:(lia) Hm Hd Hm' Hd'). lia.
  - split; [reflexivity|]. unfold ymd_to_ord in E.
    apply (day_of_year_inj y'); try assumption. lia.
  - pose proof (ymd_to_ord_lt y' m' d' y m d ltac:(lia) Hm' Hd' Hm Hd). lia.
Qed.

Lemma valid_fields_ranges y mo d h mi s us :
  valid_fields y mo d h mi s us = true ->
  1 <= y /\ 1 <= mo <= 12 /\ 1 <= d <= days_in_month y mo /\
  0 <= h <= 23 /\ 0 <= mi <= 59 /\ 0 <= s <= 59.
Proof.
  unfold valid_fields, MINYEAR. intros V.
  repeat (apply andb_true_iff in V as [V ?]).
  repeat match goal with H : (_ <=? _) = true |- _ => apply Z.leb_le in H end.
  lia.
Qed.

(** Two [datetime]s with fields in their ranges, of the same zone and
    microsecond, that are as many seconds from the start are the same. *)
Lemma seconds_of_inj a b :
  valid_datetime a = true -> valid_datetime b = true ->
  tzinfo a = tzinfo b -> microsecond a = microsecond b ->
  seconds_of a = seconds_of b -> a = b.
Proof.
  destruct a as [y m d h mi s us tz], b as [y' m' d' h' mi' s' us' tz'].
  unfold valid_datetime, seconds_of, minutes_of. simpl.
  intros Va Vb -> -> E.
  apply valid_fields_ranges in Va, Vb.
  assert (ymd_to_ord y m d = ymd_to_ord y' m' d' /\ h = h' /\ mi = mi' /\ s = s')
    as (Eo & -> & -> & ->) by lia.
  destruct (ymd_to_ord_inj y m d y' m' d') as (-> & -> & ->); tauto.
Qed.

End Instants.

Lemma denoted_naive mo dt zone :
  denoted mo = Some (dt, zone) ->
  Datetime.tzinfo dt = None /\ Datetime.microsecond dt = 0.
Proof.
  unfold denoted. intros D.
  repeat match type of D with
         | mbind _ ?x = Some _ =>
             destruct x; [|discriminate D]; cbn [mbind option_bind] in D
         end.
  injection D as <- _. split; reflexivity.
Qed.

(** The same instant written in two zones is one [datetime]: when two
    texts match and denote dates and times that [datetime] takes, in
    zones of less than a day, and these are the same instant, which is of
    the years 1 to 9999 in UTC and on the host, [_convert_INTERNALDATE]
    gives the same for both. *)
Theorem zone_of_the_text_is_immaterial host text1 text2 mo1 mo2 dt1 dt2 zone1 zone2 :
  Imaplib.InternalDate_match (internaldate_text text1) = Some mo1 ->
  Imaplib.InternalDate_match (internaldate_text text2) = Some mo2 ->
  denoted mo1 = Some (dt1, zone1) ->
  denoted mo2 = Some (dt2, zone2) ->
  valid_datetime dt1 = true -> valid_datetime dt2 = true ->
  (-1440 < zone1 < 1440)%Z -> (-1440 < zone2 < 1440)%Z ->
  (-1440 < host < 1440)%Z ->
  (Datetime.seconds_of dt1 - 60 * zone1 = Datetime.seconds_of dt2 - 60 * zone2)%Z ->
  Datetime.in_range (Datetime.minutes_of dt1 - zone1) ->
  Datetime.in_range (Datetime.minutes_of dt1 - zone1 + host) ->
  exists r, _convert_INTERNALDATE host (PyStr text1) = Return r /\
            _convert_INTERNALDATE host (PyStr text2) = Return r.
Proof.
  intros M1 M2 D1 D2 V1 V2 Z1 Z2 Hh E R1 R2.
  assert (Em : (Datetime.minutes_of dt2 - zone2 = Datetime.minutes_of dt1 - zone1)%Z).
  { unfold valid_datetime in V1, V2.
    apply valid_fields_second in V1, V2.
    unfold Datetime.seconds_of in E. lia. }
  destruct (convert_INTERNALDATE_Return host text1 mo1 dt1 zone1 M1 D1 V1 Z1 Hh R1 R2)
    as (r1 & C1 & T1 & W1 & S1).
  destruct (convert_INTERNALDATE_Return host text2 mo2 dt2 zone2 M2 D2 V2 Z2 Hh)
    as (r2 & C2 & T2 & W2 & S2); [rewrite Em; exact R1|rewrite Em; exact R2|].
  exists r1. split; [exact C1|]. rewrite C2. f_equal.
  destruct (convert_INTERNALDATE_naive _ _ _ C1) as [_ U1].
  destruct (convert_INTERNALDATE_naive _ _ _ C2) as [_ U2].
  apply seconds_of_inj; try assumption; [congruence|congruence|lia].
Qed.

(** 16:45:32 at +0000 and 18:45:32 at +0200 of the same day, on a host
    at -0500. *)
Lemma zone_of_the_text_is_immaterial_witness :
  exists r,
    _convert_INTERNALDATE (-300) (PyStr "16-Mar-2010 16:45:32 +0000") = Return r /\
    _convert_INTERNALDATE (-300) (PyStr "16-Mar-2010 18:45:32 +0200") = Return r.
Proof.
  apply (zone_of_the_text_is_immaterial (-300)
           "16-Mar-2010 16:45:32 +0000" "16-Mar-2010 18:45:32 +0200"
           (Imaplib.mkGroups "16" "Mar" "2010" "16" "45" "32" "+" "00" "00")
           (Imaplib.mkGroups "16" "Mar" "2010" "18" "45" "32" "+" "02" "00")
           (Datetime.mkdt 2010 3 16 16 45 32 0 None)
           (Datetime.mkdt 2010 3 16 18 45 32 0 None) 0 120);
    try reflexivity; try lia; unfold Datetime.in_range; vm_compute; split; congruence.
Defined.

(** A text in the zone of the host reads as it is written: its date
    and its time are the fields of the [datetime]. *)
Theorem text_in_the_host_zone_reads_as_written host text mo dt :
  Imaplib.InternalDate_match (internaldate_text text) = Some mo ->
  denoted mo = Some (dt, host) ->
  valid_datetime dt = true ->
  (-1440 < host < 1440)%Z ->
  Datetime.in_range (Datetime.minutes_of dt - host) ->
  _convert_INTERNALDATE host (PyStr text) = Return dt.
Proof.
  intros M D V Hh R.
  assert (R' : Datetime.in_range (Datetime.minutes_of dt)).
  { unfold Datetime.in_range, Datetime.minutes_of, Datetime.MAXORDINAL, Datetime.ymd_to_ord.
    pose proof (valid_fields_ranges _ _ _ _ _ _ _ V) as (Hy & Hm & Hd & Hhh & Hmi & _).
    pose proof (day_of_year_range _ _ _ Hm Hd) as Hr.
    pose proof (days_before_year_mono 1 (Datetime.year dt) ltac:(lia)) as H1.
    assert (Hy2 : (Datetime.year dt <= 9999)%Z).
    { unfold valid_datetime, Datetime.valid_fields, Datetime.MAXYEAR in V.
      repeat (apply andb_true_iff in V as [V ?]).
      repeat match goal with H : (_ <=? _)%Z = true |- _ => apply Z.leb_le in H end.
      lia. }
    pose proof (days_before_year_succ (Datetime.year dt)) as Hs.
    pose proof (days_before_year_mono (Datetime.year dt + 1) 10000 ltac:(lia)) as H2.
    change (Datetime.days_before_year 1) with 0%Z in H1.
    change (Datetime.days_before_year 10000) with 3652059%Z in H2.
    destruct (Datetime.is_leap (Datetime.year dt)); lia. }
  destruct (convert_INTERNALDATE_Return host text mo dt host M D V Hh Hh R)
    as (r & C & T & W & S).
  { replace (Datetime.minutes_of dt - host + host)%Z with (Datetime.minutes_of dt) by lia.
    exact R'. }
  rewrite C. f_equal.
  destruct (convert_INTERNALDATE_naive _ _ _ C) as [_ U].
  destruct (denoted_naive _ _ _ D) as [Tz Us].
  apply seconds_of_inj; try assumption; [congruence|congruence|lia].
Qed.

(** 16:45:32 at +0200 on a host at +0200. *)
Lemma text_in_the_host_zone_reads_as_written_witness :
  _convert_INTERNALDATE 120 (PyStr "16-Mar-2010 16:45:32 +0200") =
  Return (Datetime.mkdt 2010 3 16 16 45 32 0 None).
Proof.
  apply (text_in_the_host_zone_reads_as_written 120 "16-Mar-2010 16:45:32 +0200"
           (Imaplib.mkGroups "16" "Mar" "2010" "16" "45" "32" "+" "02" "00"));
    try reflexivity; try lia; unfold Datetime.in_range; vm_compute; split; congruence.
Defined.

(** ** What a parsed response is made of *)

Lemma digits_val_nonneg s : forall acc,
  0 <= acc -> PyStr.all_chars PyStr.is_digit s = true -> 0 <= PyStr.digits_val acc s.
Proof.
  induction s as [|c r IH]; simpl; intros acc Ha H; [exact Ha|].
  apply andb_true_iff in H as [Hc Hr]. apply IH; [|exact Hr].
  unfold PyStr.is_digit in Hc. apply andb_true_iff in Hc as [H1 _].
  apply Nat.leb_le in H1. unfold PyStr.digit_val. lia.
Qed.

(** A token that is no parenthesis gives no tuple and no negative
    number. *)
Lemma atom_leaf_writable src token v :
  atom_leaf src token = Return v ->
  writable v = true /\ length (unparse v) = 1%nat.
Proof.
  unfold atom_leaf. intros H.
  destruct (String.eqb token "NIL"); [injection H as <-; split; reflexivity|].
  destruct (PyStr.first token) as [c0|]; [|discriminate].
  destruct (Ascii.eqb c0 "{").
  - destruct (PyStr.int_of_str _); [|discriminate].
    destruct (current_literal src); [|discriminate].
    destruct (negb _); [discriminate|]. injection H as <-. split; reflexivity.
  - destruct (_ && _ && _); [injection H as <-; split; reflexivity|].
    destruct (PyStr.isdigit token) eqn:D; injection H as <-; [|split; reflexivity].
    split; [|reflexivity]. simpl. apply Z.leb_le. apply digits_val_nonneg; [lia|].
    destruct token; [discriminate|exact D].
Qed.

Lemma atom_run_account :
  (forall src token r, atom_run src token r ->
     forall v src', r = Return (v, src') ->
     writable v = true /\
     (length (unparse v) + length (pending src') = S (length (pending src)))%nat) /\
  (forall src out r, list_run src out r ->
     forall v src', r = Return (v, src') ->
     exists items,
       v = PyTuple (out ++ items)%list /\ forallb writable items = true /\
       (length (List.concat (List.map unparse items)) + 1 + length (pending src')
        = length (pending src))%nat).
Proof.
  apply atom_list_run_ind.
  - intros src r _ IH v src' ->.
    destruct (IH _ _ eq_refl) as (items & -> & W & L). simpl.
    split; [exact W|]. rewrite length_app. simpl. lia.
  - intros src token Hne v src' H.
    destruct (atom_leaf src token) as [w|e] eqn:E; simpl in H; [|discriminate].
    injection H as <- <-. destruct (atom_leaf_writable _ _ _ E) as [W L].
    split; [exact W|]. rewrite L. reflexivity.
  - intros; discriminate.
  - intros src out src' N v s [= <- <-]. exists []. rewrite app_nil_r.
    split; [reflexivity|]. split; [reflexivity|].
    rewrite (next_token_pending _ _ _ N). simpl. reflexivity.
  - intros; discriminate.
  - intros src out token src' v src'' r N Hne _ IHa _ IHl w s ->.
    destruct (IHa _ _ eq_refl) as [W L].
    destruct (IHl _ _ eq_refl) as (items & -> & Ws & Ls).
    exists (v :: items). rewrite <- app_assoc. split; [reflexivity|].
    split; [simpl; rewrite W, Ws; reflexivity|].
    rewrite (next_token_pending _ _ _ N). simpl. rewrite length_app. lia.
Qed.

Lemma gen_run_account src g :
  gen_run src g -> snd g = Stop ->
  forallb writable (fst g) = true /\
  length (List.concat (List.map unparse (fst g))) = length (pending src).
Proof.
  induction 1 as [src N|src token s1 e N A|src token s1 v s2 vs t N A G IH];
    simpl; intros Ht; [|discriminate|].
  - rewrite (next_token_None _ N). split; reflexivity.
  - destruct (proj1 atom_run_account _ _ _ A _ _ eq_refl) as [W L].
    destruct (IH Ht) as [Ws Ls]. simpl in Ws, Ls.
    split; [rewrite W, Ws; reflexivity|].
    rewrite (next_token_pending _ _ _ N). simpl. rewrite length_app. lia.
Qed.

(** What [parse_response] returns accounts for every token: its numbers
    are not negative, it takes as many tokens to write as there were to
    read, and written as tokens and parsed again it is itself. *)
Theorem parsed_values_account_for_the_tokens src vs :
  parse_response_src src = Return vs ->
  forallb writable vs = true /\
  length (List.concat (List.map unparse vs)) = length (pending src) /\
  parse_response_src (source_of (List.concat (List.map unparse vs))) = Return vs.
Proof.
  intros H.
  destruct (parse_response_src_cases src) as [G [[Hs E]|[e [Hr E]]]]; [|congruence].
  assert (fst (gen_parsed_response_src src) = vs) as Hvs by congruence.
  destruct (gen_run_account _ _ G Hs) as [W L]. rewrite Hvs in W, L.
  split; [exact W|]. split; [exact L|].
  clear - W. induction vs as [|v vs IH]; [reflexivity|].
  simpl in W. apply andb_true_iff in W as [Wv Wvs].
  simpl. rewrite source_of_app.
  rewrite (parse_response_src_extend _ _ _ (unparse_parse_one v Wv)), (IH Wvs). reflexivity.
Qed.

(** The tokens [7 ( {3} NIL ) )] with the payload [abc]. *)
Lemma parsed_values_account_for_the_tokens_witness :
  forallb writable [PyInt 7; PyTuple [PyStr "abc"; PyNone]; PyStr ")"] = true /\
  length (List.concat (List.map unparse [PyInt 7; PyTuple [PyStr "abc"; PyNone]; PyStr ")"]))
  = 6%nat /\
  parse_response_src
    (source_of ["7"; "("; PyStr.quoted "abc"; "NIL"; ")"; PyStr.quoted ")"]) =
  Return [PyInt 7; PyTuple [PyStr "abc"; PyNone]; PyStr ")"].
Proof.
  apply (parsed_values_account_for_the_tokens
           (mkSource None [("7", None); ("(", None); ("{3}", Some "abc"); ("NIL", None);
                           (")", None); (")", None)])
           [PyInt 7; PyTuple [PyStr "abc"; PyNone]; PyStr ")"]).
  reflexivity.
Defined.

(** ** Field names in lower case *)

Lemma upper_names_length items : length (upper_names items) = length items.
Proof.
  induction items as [|x|name value rest IH] using list_pair_ind; [reflexivity| |].
  - destruct x; reflexivity.
  - destruct name; try reflexivity. simpl. rewrite IH. reflexivity.
Qed.

Lemma fetch_fields_upper_names host items : forall msg_id msg_data,
  fetch_fields host msg_id msg_data (upper_names items) =
  fetch_fields host msg_id msg_data items.
Proof.
  induction items as [|x|name value rest IH] using list_pair_ind;
    intros msg_id msg_data; [reflexivity| |].
  - destruct x; reflexivity.
  - destruct name as [| |s|]; try reflexivity.
    cbn [upper_names fetch_fields py_upper bind]. rewrite upper_idempotent.
    destruct (String.eqb (PyStr.upper s) "UID").
    + destruct (_int_or_error value "invalid UID"); simpl; [apply IH|reflexivity].
    + destruct (String.eqb (PyStr.upper s) "INTERNALDATE").
      * destruct (_convert_INTERNALDATE host value); simpl; [apply IH|reflexivity].
      * apply IH.
Qed.

Lemma fetch_loop_upper_fields host vals : forall tbl fin,
  fetch_loop host tbl (upper_fields vals) fin = fetch_loop host tbl vals fin \/
  exists v1 v2,
    fetch_loop host tbl vals fin = Raise (ParseError (UnevenItems v1)) /\
    fetch_loop host tbl (upper_fields vals) fin = Raise (ParseError (UnevenItems v2)).
Proof.
  induction vals as [|x|first msg_response vals IH] using list_pair_ind;
    intros tbl fin; [left; reflexivity| |].
  - left. destruct x; reflexivity.
  - destruct msg_response as [| | |items]; try (left; reflexivity).
    cbn [upper_fields fetch_loop].
    destruct (_int_or_error first "invalid message ID") as [s|]; simpl;
      [|left; reflexivity].
    rewrite upper_names_length.
    destruct (Nat.odd (length items)); [right; eexists _, _; split; reflexivity|].
    rewrite fetch_fields_upper_names.
    destruct (fetch_fields host s _ items) as [[k rec]|]; simpl; [apply IH|left; reflexivity].
Qed.

(** The case of the field names is of no account: of two responses that
    parse to the same values but for the case of the field names, one
    having them in upper case, both decode to the same table or raise
    the same, save that the message about a field list of uneven length
    shows the list as it was written. *)
Theorem field_names_are_case_blind host src1 src2 :
  snd (gen_parsed_response_src src2) = snd (gen_parsed_response_src src1) ->
  fst (gen_parsed_response_src src2) = upper_fields (fst (gen_parsed_response_src src1)) ->
  parse_fetch_response_src host src2 = parse_fetch_response_src host src1 \/
  exists v1 v2,
    parse_fetch_response_src host src1 = Raise (ParseError (UnevenItems v1)) /\
    parse_fetch_response_src host src2 = Raise (ParseError (UnevenItems v2)).
Proof.
  intros Ht Hv. unfold parse_fetch_response_src. cbv zeta.
  rewrite Ht, Hv. apply fetch_loop_upper_fields.
Qed.

(** [1 (flags (a) Uid 9)] and [1 (FLAGS (a) UID 9)]; [1 (flags)] and
    [1 (FLAGS)]. *)
Lemma field_names_are_case_blind_witness :
  (parse_fetch_response_src 0
     (source_of ["1"; "("; "FLAGS"; "("; "a"; ")"; "UID"; "9"; ")"]) =
   parse_fetch_response_src 0
     (source_of ["1"; "("; "flags"; "("; "a"; ")"; "Uid"; "9"; ")"]) \/
   exists v1 v2,
     parse_fetch_response_src 0
       (source_of ["1"; "("; "flags"; "("; "a"; ")"; "Uid"; "9"; ")"]) =
       Raise (ParseError (UnevenItems v1)) /\
     parse_fetch_response_src 0
       (source_of ["1"; "("; "FLAGS"; "("; "a"; ")"; "UID"; "9"; ")"]) =
       Raise (ParseError (UnevenItems v2))) /\
  parse_fetch_response_src 0 (source_of ["1"; "("; "flags"; ")"]) =
    Raise (ParseError (UnevenItems (PyTuple [PyStr "flags"]))) /\
  parse_fetch_response_src 0 (source_of ["1"; "("; "FLAGS"; ")"]) =
    Raise (ParseError (UnevenItems (PyTuple [PyStr "FLAGS"]))).
Proof.
  split; [|split; reflexivity].
  apply (field_names_are_case_blind 0
           (source_of ["1"; "("; "flags"; "("; "a"; ")"; "Uid"; "9"; ")"])
           (source_of ["1"; "("; "FLAGS"; "("; "a"; ")"; "UID"; "9"; ")"]));
    reflexivity.
Defined.

(** ** The first failure *)

Lemma fetch_loop_app_Raise host pre : forall tbl rest fin e,
  Nat.even (length pre) = true ->
  fetch_loop host tbl pre Stop = Raise e ->
  fetch_loop host tbl (pre ++ rest)%list fin = Raise e.
Proof.
  induction pre as [|x|first msg_response pre IH] using list_pair_ind;
    intros tbl rest fin e Hev H; [discriminate|discriminate|].
  cbn [app fetch_loop] in *.
  destruct (_int_or_error first "invalid message ID") as [s|]; simpl in *; [|exact H].
  destruct msg_response as [| | |items]; try exact H.
  destruct (Nat.odd (length items)); [exact H|].
  destruct (fetch_fields host s _ items) as [[k rec]|]; simpl in *; [|exact H].
  apply IH; assumption.
Qed.

(** The decoder takes the values as the parser gives them, one message
    at a time: when a message fails to decode, that failure is what is
    raised, whatever comes after the message, be it text that the parser
    refuses. *)
Theorem first_failure_is_raised host src pre rest fin e :
  gen_parsed_response_src src = ((pre ++ rest)%list, fin) ->
  Nat.even (length pre) = true ->
  fetch_loop host ∅ pre Stop = Raise e ->
  parse_fetch_response_src host src = Raise e.
Proof.
  intros G Hev H. rewrite (parse_fetch_response_src_eq _ _ _ _ G).
  apply fetch_loop_app_Raise; assumption.
Qed.

(** [1 (UID x)] before a parenthesis that nothing closes. *)
Lemma first_failure_is_raised_witness :
  parse_fetch_response_src 0 (source_of ["1"; "("; "UID"; "x"; ")"; "("]) =
    Raise (ParseError (IntOrError "invalid UID" (PyStr "x"))) /\
  parse_response_src (source_of ["1"; "("; "UID"; "x"; ")"; "("]) =
    Raise (ParseError (TupleIncomplete [])).
Proof.
  split; [|reflexivity].
  apply (first_failure_is_raised 0 (source_of ["1"; "("; "UID"; "x"; ")"; "("])
           [PyInt 1; PyTuple [PyStr "UID"; PyStr "x"]] []
           (Raised (ParseError (TupleIncomplete []))));
    reflexivity.
Defined.
